(** * RankVectors JS SDK: a shallow embedding of [src/index.ts]

    The client class [RankVectorsSDK] is embedded as state-passing code over
    a world that holds the instance's fields and the list of requests handed
    to [fetch].  JavaScript values, truthiness, string conversion,
    [JSON.stringify] and the [URLSearchParams] serializer are written out;
    the number and date primitives of the host are an interface ([Host]),
    and the remote server is a function of the request history. *)

From stdpp Require Import base option list strings gmap pretty.
From Stdlib Require Import ZArith Ascii String.

Local Open Scope string_scope.
Local Open Scope list_scope.
Set Warnings "-register-all".

(** ** Host primitives *)

(** What the embedding needs of the JavaScript host for [number] and [Date]:
    [ToBoolean] on numbers (false on [+0], [-0] and [NaN] only), finiteness,
    [Number.prototype.toString()] and [Date.prototype.toISOString()], which
    raises a [RangeError] ([None]) on an invalid date. *)
Class Host := {
  number : Type;
  number_truthy : number → bool;
  number_isFinite : number → bool;
  number_toString : number → string;
  date : Type;
  date_toISOString : date → option string;
}.

(** ** Strings

    A string is the sequence of bytes of its UTF-8 text; a JavaScript
    string that is not Unicode text, one with a lone surrogate, has none
    and is not among them. *)

Definition dquote : ascii := "034"%char.
Definition backslash : ascii := "092"%char.

Definition string_truthy (s : string) : bool :=
  match s with EmptyString => false | String _ _ => true end.

Fixpoint contains_char (c : ascii) (s : string) : bool :=
  match s with
  | EmptyString => false
  | String d rest => Ascii.eqb c d || contains_char c rest
  end.

(** [s.replace(/\/$/, '')]: the pattern matches a slash at the very end of
    the input only, and [replace] with a non-global pattern rewrites one
    match. *)
Fixpoint replace_trailing_slash (s : string) : string :=
  match s with
  | EmptyString => EmptyString
  | String c EmptyString => if Ascii.eqb c "/" then EmptyString else s
  | String c rest => String c (replace_trailing_slash rest)
  end.

Fixpoint ends_with_slash (s : string) : bool :=
  match s with
  | EmptyString => false
  | String c EmptyString => Ascii.eqb c "/"
  | String _ rest => ends_with_slash rest
  end.

(** Template-literal rendering of the integer [response.status]. *)
Definition decimal (z : Z) : string := pretty z.

(** *** The [application/x-www-form-urlencoded] serializer *)

Definition in_range (lo hi n : N) : bool := (lo <=? n)%N && (n <=? hi)%N.

(** Bytes the form serializer leaves as they are: ASCII letters and digits
    and the four characters [*], [-], [.] and [_]. *)
Definition form_safe (c : ascii) : bool :=
  let n := N_of_ascii c in
  in_range 48 57 n || in_range 65 90 n || in_range 97 122 n
  || (n =? 42)%N || (n =? 45)%N || (n =? 46)%N || (n =? 95)%N.

Definition hex_upper (n : N) : ascii :=
  ascii_of_N (if (n <? 10)%N then 48 + n else 55 + n).

Definition hex_lower (n : N) : ascii :=
  ascii_of_N (if (n <? 10)%N then 48 + n else 87 + n).

Definition form_encode_byte (c : ascii) : string :=
  if form_safe c then String c EmptyString
  else if Ascii.eqb c " " then "+"
  else let n := N_of_ascii c in
       String "%" (String (hex_upper (n / 16)) (String (hex_upper (n mod 16)) EmptyString)).

Fixpoint form_encode (s : string) : string :=
  match s with
  | EmptyString => EmptyString
  | String c rest => form_encode_byte c +:+ form_encode rest
  end.

(** [URLSearchParams]: the ordered list of name/value pairs. *)
Definition URLSearchParams := list (string * string).

Definition params_append (params : URLSearchParams) (name value : string)
  : URLSearchParams := params ++ [(name, value)].

Definition form_pair (p : string * string) : string :=
  form_encode p.1 +:+ "=" +:+ form_encode p.2.

Definition params_toString (params : URLSearchParams) : string :=
  String.concat "&" (form_pair <$> params).

(** *** [JSON.stringify] on strings *)

Definition json_escape_byte (c : ascii) : string :=
  let n := N_of_ascii c in
  if (n =? 8)%N then String backslash "b"
  else if (n =? 9)%N then String backslash "t"
  else if (n =? 10)%N then String backslash "n"
  else if (n =? 12)%N then String backslash "f"
  else if (n =? 13)%N then String backslash "r"
  else if (n =? 34)%N then String backslash (String dquote EmptyString)
  else if (n =? 92)%N then String backslash (String backslash EmptyString)
  else if (n <? 32)%N then
    String backslash ("u00" +:+
      String (hex_lower (n / 16)) (String (hex_lower (n mod 16)) EmptyString))
  else String c EmptyString.

Fixpoint json_escape (s : string) : string :=
  match s with
  | EmptyString => EmptyString
  | String c rest => json_escape_byte c +:+ json_escape rest
  end.

Definition json_quote (s : string) : string :=
  String dquote (json_escape s +:+ String dquote EmptyString).

(** ** Exceptions and outcomes *)

(** What an [async] method settles with.  [Error message] is the value of
    [new Error(message)]; the other three are raised by the host (property
    access on [null], a body that is not JSON, an invalid date) and their
    messages are the engine's own. *)
Inductive exn :=
| Error (message : string)
| TypeError
| SyntaxError
| RangeError.

Inductive outcome (A : Type) :=
| Return (a : A)
| Throw (e : exn).
Arguments Return {A} a.
Arguments Throw {A} e.

Definition is_Return {A} (o : outcome A) : bool :=
  match o with Return _ => true | Throw _ => false end.

(** State and exceptions: a computation over a state [S] ends in a value or
    a raised exception, and in both cases leaves a state behind. *)
Definition M (S A : Type) : Type := S → outcome A * S.

Definition ret {S A} (a : A) : M S A := λ s, (Return a, s).
Definition throw {S A} (e : exn) : M S A := λ s, (Throw e, s).
Definition bind {S A B} (m : M S A) (k : A → M S B) : M S B :=
  λ s, match m s with
       | (Return a, s') => k a s'
       | (Throw e, s') => (Throw e, s')
       end.
Definition lift {S A} (o : outcome A) : M S A := λ s, (o, s).
(** [promise.catch(handler)]. *)
Definition catch {S A} (m : M S A) (handler : exn → M S A) : M S A :=
  λ s, match m s with
       | (Return a, s') => (Return a, s')
       | (Throw e, s') => handler e s'
       end.

Notation "'let*' x := m 'in' k" := (bind m (λ x, k))
  (at level 10, x name, m at level 100, k at level 200, only parsing).

Section Client.
Context `{!Host}.

(** ** JavaScript values *)

(** The values that flow through the client: what [JSON.parse] builds, plus
    [undefined].  An object is the list of its own properties in
    enumeration order; a lookup takes the first binding of a name. *)
Inductive value :=
| VUndefined
| VNull
| VBool (b : bool)
| VNum (n : number)
| VStr (s : string)
| VArr (elements : list value)
| VObj (props : list (string * value)).

Fixpoint obj_lookup (name : string) (props : list (string * value))
  : option value :=
  match props with
  | [] => None
  | (k, v) :: rest => if decide (k = name) then Some v else obj_lookup name rest
  end.

(** [ToBoolean]. *)
Definition truthy (v : value) : bool :=
  match v with
  | VUndefined | VNull => false
  | VBool b => b
  | VNum n => number_truthy n
  | VStr s => string_truthy s
  | VArr _ | VObj _ => true
  end.

(** [v.name] for the property names this client reads ([error],
    [suggestions], [implementation], [implementations], [usageHistory],
    [balance], [verification]): none of them is defined on a prototype, so
    only an object's own properties can answer; [null] and [undefined]
    raise a [TypeError]. *)
Definition get_prop (v : value) (name : string) : outcome value :=
  match v with
  | VUndefined | VNull => Throw TypeError
  | VObj props => Return (default VUndefined (obj_lookup name props))
  | _ => Return VUndefined
  end.

Definition outcome_bind {A B} (o : outcome A) (k : A → outcome B) : outcome B :=
  match o with Return a => k a | Throw e => Throw e end.

(** [ToString], as [new Error(message)] applies it to its argument.  An
    array joins its elements with commas, [null] and [undefined] elements
    rendering as nothing.  A parsed object has no callable [toString] of
    its own: it inherits the one of [Object.prototype] unless a property
    named [toString] shadows it, and then the conversion raises a
    [TypeError]. *)
Fixpoint ToString (v : value) : outcome string :=
  match v with
  | VUndefined => Return "undefined"
  | VNull => Return "null"
  | VBool b => Return (if b then "true" else "false")
  | VNum n => Return (number_toString n)
  | VStr s => Return s
  | VArr elements =>
      (fix join (l : list value) : outcome string :=
         match l with
         | [] => Return ""
         | e :: rest =>
             outcome_bind
               (match e with
                | VUndefined | VNull => Return ""
                | _ => ToString e
                end)
               (λ s, match rest with
                     | [] => Return s
                     | _ :: _ => outcome_bind (join rest) (λ r, Return (s +:+ "," +:+ r))
                     end)
         end) elements
  | VObj props =>
      match obj_lookup "toString" props with
      | Some _ => Throw TypeError
      | None => Return "[object Object]"
      end
  end.

(** [JSON.stringify(v)]; [None] is the [undefined] it answers for
    [undefined].  In an array [undefined] prints as [null]; in an object a
    property whose value is [undefined] is left out. *)
Fixpoint JSON_stringify (v : value) : option string :=
  match v with
  | VUndefined => None
  | VNull => Some "null"
  | VBool b => Some (if b then "true" else "false")
  | VNum n => Some (if number_isFinite n then number_toString n else "null")
  | VStr s => Some (json_quote s)
  | VArr elements =>
      Some ("[" +:+
            String.concat "," ((λ e, default "null" (JSON_stringify e)) <$> elements)
            +:+ "]")
  | VObj props =>
      Some ("{" +:+
            String.concat ","
              (omap (λ p, (λ s, json_quote p.1 +:+ ":" +:+ s) <$> JSON_stringify p.2)
                    props)
            +:+ "}")
  end.

(** A value of type [any], or a property of a caller's object: plain data,
    or something else, known by what [JSON.stringify] makes of it where it
    stands as a property: an exception (a cycle, a BigInt, a [toJSON] that
    raises), nothing (a function, a symbol) or a text (a [Date], an object
    with a [toJSON] method). *)
Inductive any :=
| Plain (v : value)
| Foreign (serialized : outcome (option string)).

Coercion Plain : value >-> any.

Definition stringify_property (a : any) : outcome (option string) :=
  match a with
  | Plain v => Return (JSON_stringify v)
  | Foreign serialized => serialized
  end.

(** The members of [JSON.stringify(object)], property by property in
    enumeration order; the first property that raises ends it. *)
Fixpoint stringify_members (props : list (string * any)) : outcome (list string) :=
  match props with
  | [] => Return []
  | (k, a) :: rest =>
      outcome_bind (stringify_property a) (λ text,
      outcome_bind (stringify_members rest) (λ members,
      Return (match text with
              | Some t => (json_quote k +:+ ":" +:+ t) :: members
              | None => members
              end)))
  end.

Definition stringify_object (props : list (string * any)) : outcome string :=
  outcome_bind (stringify_members props) (λ members,
  Return ("{" +:+ String.concat "," members +:+ "}")).

(** An array index: the canonical decimal text of an integer from 0 to
    2^32 - 2.  An object enumerates the properties so named first, in
    ascending order, and the others after them in the order they were
    added. *)
Fixpoint decimal_value (s : string) (acc : N) : option N :=
  match s with
  | EmptyString => Some acc
  | String c rest =>
      let n := N_of_ascii c in
      if in_range 48 57 n then decimal_value rest (10 * acc + (n - 48))%N else None
  end.

Definition array_index (name : string) : option N :=
  match name with
  | EmptyString => None
  | String c rest =>
      if Ascii.eqb c "0" && string_truthy rest then None
      else match decimal_value name 0 with
           | Some n => if (n <? 4294967295)%N then Some n else None
           | None => None
           end
  end.

Fixpoint own_property {A} (name : string) (props : list (string * A)) : option A :=
  match props with
  | [] => None
  | (k, v) :: rest => if decide (k = name) then Some v else own_property name rest
  end.

(** A property that is there keeps its place and takes the new value. *)
Fixpoint obj_replace {A} (name : string) (v : A) (props : list (string * A))
  : list (string * A) :=
  match props with
  | [] => []
  | (k, w) :: rest =>
      if decide (k = name) then (k, v) :: rest else (k, w) :: obj_replace name v rest
  end.

(** A new array index goes before the first property that is not an array
    index or is a greater one. *)
Fixpoint obj_insert_index {A} (n : N) (name : string) (v : A)
    (props : list (string * A)) : list (string * A) :=
  match props with
  | [] => [(name, v)]
  | (k, w) :: rest =>
      match array_index k with
      | Some m =>
          if (m <? n)%N then (k, w) :: obj_insert_index n name v rest
          else (name, v) :: (k, w) :: rest
      | None => (name, v) :: (k, w) :: rest
      end
  end.

(** [{...target, name: v}]: a name already present keeps its place and
    takes the new value; a new name goes to its place among the array
    indices, or last when it is not one. *)
Definition obj_set {A} (name : string) (v : A) (props : list (string * A))
  : list (string * A) :=
  match own_property name props with
  | Some _ => obj_replace name v props
  | None =>
      match array_index name with
      | Some n => obj_insert_index n name v props
      | None => props ++ [(name, v)]
      end
  end.

(** [{...target, ...source}]: the properties of [source] are set one after
    the other, in its enumeration order. *)
Definition obj_spread {A} (target source : list (string * A))
  : list (string * A) :=
  foldl (λ acc p, obj_set p.1 p.2 acc) target source.

(** ** The transport *)

(** The fields of [RequestInit] this client sets or forwards.  [headers] is
    a plain record from header name to value. *)
Record RequestInit := {
  method : option string;
  body : option string;
  headers : option (gmap string string);
}.

Definition no_options : RequestInit :=
  {| method := None; body := None; headers := None |}.

(** One call of [fetch(url, init)]. *)
Record FetchCall := {
  url : string;
  init : RequestInit;
}.

(** What the client reads of a [Response]: [json] is what [response.json()]
    settles with, a raised exception when the body is not JSON. *)
Record Response := {
  status : Z;
  statusText : string;
  json : outcome value;
}.

(** [response.ok]. *)
Definition ok (response : Response) : bool :=
  (200 <=? status response)%Z && (status response <=? 299)%Z.

(** ** The client *)

Record RankVectorsSDK := {
  apiKey : string;
  baseUrl : string;
}.

(** The state a method runs in: the instance it is called on and the calls
    of [fetch] made so far, oldest first. *)
Record World := {
  this : RankVectorsSDK;
  wire : list FetchCall;
}.

(** The remote side: what [fetch] settles with, given the calls made before
    and the call made now. *)
Variable net : list FetchCall → FetchCall → outcome Response.

Definition fetch (url : string) (init : RequestInit) : M World Response :=
  λ w, let call := {| url := url; init := init |} in
       (net (wire w) call, {| this := this w; wire := wire w ++ [call] |}).

Definition get_this : M World RankVectorsSDK := λ w, (Return (this w), w).

(** [constructor(apiKey, baseUrl = 'https://rankvectors.com')]; [None] is
    an argument left out.  It runs over the list of [fetch] calls alone:
    there is no instance yet. *)
Definition constructor (apiKey : option string) (baseUrl : option string)
  : M (list FetchCall) RankVectorsSDK :=
  if negb (from_option string_truthy false apiKey) then
    throw (Error "API key is required")
  else
    ret {| apiKey := default "" apiKey;
           baseUrl := replace_trailing_slash
                        (default "https://rankvectors.com" baseUrl) |}.

Definition default_headers (apiKey : string) : gmap string string :=
  <["Content-Type" := "application/json"]>
    (<["Authorization" := "Bearer " +:+ apiKey]> ∅).

(** [{Authorization: ..., 'Content-Type': ..., ...options.headers}]: the
    caller's entries are spread last. *)
Definition merged_headers (apiKey : string) (options : RequestInit)
  : gmap string string :=
  default ∅ (headers options) ∪ default_headers apiKey.

Definition failure_message (response : Response) : string :=
  "API request failed: " +:+ decimal (status response) +:+ " " +:+ statusText response.

(** [private async request<T>(endpoint, options = {})]. *)
Definition request (endpoint : string) (options : RequestInit) : M World value :=
  let* self := get_this in
  let url := baseUrl self +:+ endpoint in
  let* response :=
    fetch url {| method := method options;
                 body := body options;
                 headers := Some (merged_headers (apiKey self) options) |} in
  if negb (ok response) then
    let* errorData := catch (lift (json response)) (λ _, ret (VObj [])) in
    let* error := lift (get_prop errorData "error") in
    let* message :=
      (if truthy error then lift (ToString error)
       else ret (failure_message response)) in
    throw (Error message)
  else lift (json response).

(** *** Suggestions *)

Record SuggestionFilters := {
  suggestion_status : option string;
  suggestion_limit : option number;
  suggestion_offset : option number;
}.

(** [if (field) params.append(name, render(field))]. *)
Definition append_if {A} (is_truthy : A → bool) (render : A → string)
    (name : string) (field : option A) (params : URLSearchParams)
  : URLSearchParams :=
  match field with
  | Some v => if is_truthy v then params_append params name (render v) else params
  | None => params
  end.

Definition with_query (path : string) (params : URLSearchParams) : string :=
  let query := params_toString params in
  path +:+ (if string_truthy query then "?" +:+ query else "").

Definition suggestions_params (filters : option SuggestionFilters)
  : URLSearchParams :=
  let params := [] in
  let params := append_if string_truthy id "status"
                  (filters ≫= suggestion_status) params in
  let params := append_if number_truthy number_toString "limit"
                  (filters ≫= suggestion_limit) params in
  let params := append_if number_truthy number_toString "offset"
                  (filters ≫= suggestion_offset) params in
  params.

Definition suggestions_endpoint (projectId : string)
    (filters : option SuggestionFilters) : string :=
  with_query ("/api/projects/" +:+ projectId +:+ "/suggestions")
             (suggestions_params filters).

Definition getSuggestions (projectId : string)
    (filters : option SuggestionFilters) : M World value :=
  let endpoint := suggestions_endpoint projectId filters in
  let* response := request endpoint no_options in
  lift (get_prop response "suggestions").

Definition approveSuggestion (suggestionId : string) : M World value :=
  let* _ := request ("/api/projects/suggestions/" +:+ suggestionId)
              {| method := Some "PATCH";
                 body := JSON_stringify (VObj [("status", VStr "approved")]);
                 headers := None |} in
  ret VUndefined.

Definition rejectSuggestion (suggestionId : string) : M World value :=
  let* _ := request ("/api/projects/suggestions/" +:+ suggestionId)
              {| method := Some "PATCH";
                 body := JSON_stringify (VObj [("status", VStr "rejected")]);
                 headers := None |} in
  ret VUndefined.

(** *** Implementations *)

(** [implementLinks]: [options] is the caller's object, property by
    property, spread after [suggestionIds].  The body is made before
    [request] is called, so a property that cannot be serialized ends the
    method there. *)
Definition implementLinks (projectId : string) (suggestionIds : list string)
    (options : list (string * any)) : M World value :=
  let* text :=
    lift (stringify_object
            (obj_spread [("suggestionIds", Plain (VArr (VStr <$> suggestionIds)))]
                        options)) in
  request ("/api/projects/" +:+ projectId +:+ "/implementations")
    {| method := Some "POST";
       body := Some text;
       headers := None |}.

Definition getImplementation (projectId implementationId : string)
  : M World value :=
  let* response :=
    request ("/api/projects/" +:+ projectId +:+ "/implementations/"
             +:+ implementationId) no_options in
  lift (get_prop response "implementation").

Record ImplementationFilters := {
  implementation_status : option string;
  implementation_platform : option string;
  implementation_limit : option number;
  implementation_offset : option number;
}.

Definition implementations_params (filters : option ImplementationFilters)
  : URLSearchParams :=
  let params := [] in
  let params := append_if string_truthy id "status"
                  (filters ≫= implementation_status) params in
  let params := append_if string_truthy id "platform"
                  (filters ≫= implementation_platform) params in
  let params := append_if number_truthy number_toString "limit"
                  (filters ≫= implementation_limit) params in
  let params := append_if number_truthy number_toString "offset"
                  (filters ≫= implementation_offset) params in
  params.

Definition implementations_endpoint (projectId : string)
    (filters : option ImplementationFilters) : string :=
  with_query ("/api/projects/" +:+ projectId +:+ "/implementations")
             (implementations_params filters).

Definition getImplementations (projectId : string)
    (filters : option ImplementationFilters) : M World value :=
  let endpoint := implementations_endpoint projectId filters in
  let* response := request endpoint no_options in
  lift (get_prop response "implementations").

(** An optional string argument as the value of the property it fills. *)
Definition optional_string (s : option string) : value :=
  from_option VStr VUndefined s.

(** [rollbackImplementation]: [credentials] is of type [any]; the body is
    made before [request] is called. *)
Definition rollbackImplementation (projectId implementationId : string)
    (reason : option string) (credentials : any) : M World value :=
  let* text :=
    lift (stringify_object
            [("reason", Plain (optional_string reason));
             ("credentials", credentials)]) in
  request ("/api/projects/" +:+ projectId +:+ "/implementations/"
           +:+ implementationId +:+ "/rollback")
    {| method := Some "POST";
       body := Some text;
       headers := None |}.

(** *** Credits *)

Record DateRange := {
  startDate : option date;
  endDate : option date;
}.

(** [if (d) params.append(name, d.toISOString())]: a [Date] is an object,
    hence truthy whenever it is there, and an invalid one makes
    [toISOString] raise. *)
Definition append_date (name : string) (d : option date)
    (params : URLSearchParams) : outcome URLSearchParams :=
  match d with
  | Some d =>
      match date_toISOString d with
      | Some iso => Return (params_append params name iso)
      | None => Throw RangeError
      end
  | None => Return params
  end.

Definition credits_params (includeHistory : option bool)
    (dateRange : option DateRange) : outcome URLSearchParams :=
  let params := [] in
  let params := if default false includeHistory
                then params_append params "includeHistory" "true" else params in
  outcome_bind (append_date "startDate" (dateRange ≫= startDate) params) (λ params,
  outcome_bind (append_date "endDate" (dateRange ≫= endDate) params) (λ params,
  Return params)).

Definition getCredits (projectId : string) (includeHistory : option bool)
    (dateRange : option DateRange) : M World value :=
  let* params := lift (credits_params includeHistory dateRange) in
  let endpoint := with_query ("/api/projects/" +:+ projectId +:+ "/credits") params in
  request endpoint no_options.

Definition getCreditUsage (projectId : string) (dateRange : option DateRange)
  : M World value :=
  let* result := getCredits projectId (Some true) dateRange in
  let* usageHistory := lift (get_prop result "usageHistory") in
  ret (if truthy usageHistory then usageHistory else VArr []).

Definition addCredits (projectId : string) (amount : number)
    (source : option string) : M World value :=
  let* response :=
    request ("/api/projects/" +:+ projectId +:+ "/credits")
      {| method := Some "POST";
         body := JSON_stringify
                   (VObj [("amount", VNum amount);
                          ("source", optional_string source)]);
         headers := None |} in
  lift (get_prop response "balance").

(** *** Change detection *)

Definition verifyContent (projectId pageUrl : string)
    (suggestionId : option string) : M World value :=
  let* response :=
    request ("/api/projects/" +:+ projectId +:+ "/verify-content")
      {| method := Some "POST";
         body := JSON_stringify
                   (VObj [("pageUrl", VStr pageUrl);
                          ("suggestionId", optional_string suggestionId)]);
         headers := None |} in
  lift (get_prop response "verification").

(** ** Sequences of public calls *)

(** One call of a public method with its arguments. *)
Inductive operation :=
| GetSuggestions (projectId : string) (filters : option SuggestionFilters)
| ApproveSuggestion (suggestionId : string)
| RejectSuggestion (suggestionId : string)
| ImplementLinks (projectId : string) (suggestionIds : list string)
    (options : list (string * any))
| GetImplementation (projectId implementationId : string)
| GetImplementations (projectId : string) (filters : option ImplementationFilters)
| RollbackImplementation (projectId implementationId : string)
    (reason : option string) (credentials : any)
| GetCredits (projectId : string) (includeHistory : option bool)
    (dateRange : option DateRange)
| GetCreditUsage (projectId : string) (dateRange : option DateRange)
| AddCredits (projectId : string) (amount : number) (source : option string)
| VerifyContent (projectId pageUrl : string) (suggestionId : option string).

Definition perform (op : operation) : M World value :=
  match op with
  | GetSuggestions p f => getSuggestions p f
  | ApproveSuggestion i => approveSuggestion i
  | RejectSuggestion i => rejectSuggestion i
  | ImplementLinks p ids o => implementLinks p ids o
  | GetImplementation p i => getImplementation p i
  | GetImplementations p f => getImplementations p f
  | RollbackImplementation p i r c => rollbackImplementation p i r c
  | GetCredits p h d => getCredits p h d
  | GetCreditUsage p d => getCreditUsage p d
  | AddCredits p a s => addCredits p a s
  | VerifyContent p u s => verifyContent p u s
  end.

(** The world after a caller has made the calls of [ops] one after the
    other, whatever each of them settled with. *)
Definition perform_all (ops : list operation) (w : World) : World :=
  foldl (λ w op, (perform op w).2) w ops.

End Client.

(** ** Reference definitions used by the statements below *)

Section Reference.
Context `{!Host}.

(** The call of [fetch] that [request] makes on the instance [self]. *)
Definition request_call (self : RankVectorsSDK) (endpoint : string)
    (options : RequestInit) : FetchCall :=
  {| url := baseUrl self +:+ endpoint;
     init := {| method := method options;
                body := body options;
                headers := Some (merged_headers (apiKey self) options) |} |}.

(** The world after one more call of [fetch]. *)
Definition sent (w : World) (call : FetchCall) : World :=
  {| this := this w; wire := wire w ++ [call] |}.

(** What [request] raises on a response whose status is not 2xx. *)
Definition failure_outcome (response : Response) : outcome value :=
  let errorData := match json response with
                   | Return data => data
                   | Throw _ => VObj []
                   end in
  outcome_bind (get_prop errorData "error") (λ error,
  outcome_bind (if truthy error then ToString error
                else Return (failure_message response)) (λ message,
  Throw (Error message))).

(** A method that leaves the fields of its instance as they were. *)
Definition keeps_this {A} (m : M World A) : Prop :=
  ∀ w, this (m w).2 = this w.

(** Rendering a table of optional fields: the fields that have a value, in
    the order of the table, each with its value. *)
Definition render_present (fields : list (string * option string))
  : URLSearchParams :=
  omap (λ field, pair field.1 <$> field.2) fields.

(** A field counts when it was given, whatever its value. *)
Definition given {A} (render : A → string) (field : option A) : option string :=
  render <$> field.

(** A field counts when it was given a truthy value. *)
Definition given_truthy {A} (is_truthy : A → bool) (render : A → string)
    (field : option A) : option string :=
  field ≫= λ v, if is_truthy v then Some (render v) else None.

Definition suggestion_fields_given (filters : option SuggestionFilters)
  : list (string * option string) :=
  [("status", given id (filters ≫= suggestion_status));
   ("limit", given number_toString (filters ≫= suggestion_limit));
   ("offset", given number_toString (filters ≫= suggestion_offset))].

Definition suggestion_fields (filters : option SuggestionFilters)
  : list (string * option string) :=
  [("status", given_truthy string_truthy id (filters ≫= suggestion_status));
   ("limit", given_truthy number_truthy number_toString (filters ≫= suggestion_limit));
   ("offset", given_truthy number_truthy number_toString (filters ≫= suggestion_offset))].

Definition implementation_fields (filters : option ImplementationFilters)
  : list (string * option string) :=
  [("status", given_truthy string_truthy id (filters ≫= implementation_status));
   ("platform", given_truthy string_truthy id (filters ≫= implementation_platform));
   ("limit", given_truthy number_truthy number_toString (filters ≫= implementation_limit));
   ("offset", given_truthy number_truthy number_toString (filters ≫= implementation_offset))].

End Reference.

(** ** A concrete host and servers for the examples *)

(** Numbers restricted to the integers that [toString] prints in plain
    decimal digits; a date is its ISO text, or [None] when invalid. *)
Definition integer_host : Host :=
  {| number := Z;
     number_truthy := λ z, negb (z =? 0)%Z;
     number_isFinite := λ _, true;
     number_toString := decimal;
     date := option string;
     date_toISOString := λ d, d |}.

Section Samples.
#[local] Existing Instance integer_host.

(** A server that answers every request with the same response. *)
Definition always (response : Response)
  : list FetchCall → FetchCall → outcome Response :=
  λ _ _, Return response.

Definition sample_client : RankVectorsSDK :=
  {| apiKey := "key"; baseUrl := "https://host" |}.

Definition sample_world : World :=
  {| this := sample_client; wire := [] |}.

Definition response_not_found : Response :=
  {| status := 404; statusText := "Not Found";
     json := Return (VObj [("error", VStr "not found")]) |}.

Definition response_empty_error : Response :=
  {| status := 404; statusText := "Not Found";
     json := Return (VObj [("error", VStr "")]) |}.

Definition response_not_json : Response :=
  {| status := 500; statusText := "Internal Server Error";
     json := Throw SyntaxError |}.

Definition response_null_body : Response :=
  {| status := 500; statusText := "Internal Server Error";
     json := Return VNull |}.

Definition sample_suggestions : value :=
  VArr [VObj [("id", VStr "s1"); ("relevanceScore", VNum 7%Z)];
        VObj [("id", VStr "s2"); ("relevanceScore", VNum 3%Z)]].

Definition response_suggestions : Response :=
  {| status := 200; statusText := "OK";
     json := Return (VObj [("suggestions", sample_suggestions)]) |}.

Definition sample_usage : value :=
  VArr [VObj [("id", VStr "u1"); ("creditsUsed", VNum 2%Z)]].

Definition response_usage : Response :=
  {| status := 200; statusText := "OK";
     json := Return (VObj [("balance", VObj []); ("usageHistory", sample_usage)]) |}.

Definition response_usage_zero : Response :=
  {| status := 200; statusText := "OK";
     json := Return (VObj [("balance", VObj []); ("usageHistory", VNum 0%Z)]) |}.

Definition options_with_authorization : RequestInit :=
  {| method := None; body := None;
     headers := Some {["Authorization" := "Basic other"]} |}.

Definition filters_limit_zero : SuggestionFilters :=
  {| suggestion_status := None;
     suggestion_limit := Some 0%Z;
     suggestion_offset := None |}.

End Samples.

(** The text of [{"status":...}] for a status word without special
    characters. *)
Definition quoted (s : string) : string :=
  String dquote (s +:+ String dquote EmptyString).

Definition status_json (word : string) : string :=
  "{" +:+ quoted "status" +:+ ":" +:+ quoted word +:+ "}".

(** ** Reference definitions for the further properties *)

(** Reading back what the form serializer wrote, as the receiving side
    does: a plus sign is a space and a percent sign with two hexadecimal
    digits is the byte they spell. *)
Definition hex_value (c : ascii) : option N :=
  let n := N_of_ascii c in
  if in_range 48 57 n then Some (n - 48)%N
  else if in_range 65 70 n then Some (n - 55)%N
  else if in_range 97 102 n then Some (n - 87)%N
  else None.

Fixpoint form_decode (s : string) : string :=
  match s with
  | EmptyString => EmptyString
  | String c rest =>
      if Ascii.eqb c "+" then String " " (form_decode rest)
      else if Ascii.eqb c "%" then
        match rest with
        | String h (String l rest') =>
            match hex_value h, hex_value l with
            | Some a, Some b => String (ascii_of_N (16 * a + b)) (form_decode rest')
            | _, _ => String c (form_decode rest)
            end
        | _ => String c (form_decode rest)
        end
      else String c (form_decode rest)
  end.

(** The text of a JSON object from the texts of its members. *)
Definition json_member (name text : string) : string :=
  quoted name +:+ ":" +:+ text.

Definition json_object (members : list string) : string :=
  "{" +:+ String.concat "," members +:+ "}".

Section Plans.
Context `{!Host}.

(** What a public method does around its one call of [request]: the
    endpoint and options it passes, and what it makes of the parsed body. *)
Definition plan : Type := string * RequestInit * (value → outcome value).

Definition post_json (method : string) (v : value) : RequestInit :=
  {| method := Some method; body := JSON_stringify v; headers := None |}.

Definition post_text (method text : string) : RequestInit :=
  {| method := Some method; body := Some text; headers := None |}.

Definition prepare (op : operation) : outcome plan :=
  match op with
  | GetSuggestions p f =>
      Return (suggestions_endpoint p f, no_options, λ r, get_prop r "suggestions")
  | ApproveSuggestion i =>
      Return ("/api/projects/suggestions/" +:+ i,
              post_json "PATCH" (VObj [("status", VStr "approved")]),
              λ _, Return VUndefined)
  | RejectSuggestion i =>
      Return ("/api/projects/suggestions/" +:+ i,
              post_json "PATCH" (VObj [("status", VStr "rejected")]),
              λ _, Return VUndefined)
  | ImplementLinks p ids o =>
      outcome_bind
        (stringify_object
           (obj_spread [("suggestionIds", Plain (VArr (VStr <$> ids)))] o))
        (λ text,
           Return ("/api/projects/" +:+ p +:+ "/implementations",
                   post_text "POST" text, Return))
  | GetImplementation p i =>
      Return ("/api/projects/" +:+ p +:+ "/implementations/" +:+ i, no_options,
              λ r, get_prop r "implementation")
  | GetImplementations p f =>
      Return (implementations_endpoint p f, no_options,
              λ r, get_prop r "implementations")
  | RollbackImplementation p i reason credentials =>
      outcome_bind
        (stringify_object
           [("reason", Plain (optional_string reason)); ("credentials", credentials)])
        (λ text,
           Return ("/api/projects/" +:+ p +:+ "/implementations/" +:+ i
                   +:+ "/rollback",
                   post_text "POST" text, Return))
  | GetCredits p h d =>
      outcome_bind (credits_params h d) (λ params,
        Return (with_query ("/api/projects/" +:+ p +:+ "/credits") params,
                no_options, Return))
  | GetCreditUsage p d =>
      outcome_bind (credits_params (Some true) d) (λ params,
        Return (with_query ("/api/projects/" +:+ p +:+ "/credits") params,
                no_options,
                λ result, outcome_bind (get_prop result "usageHistory") (λ u,
                          Return (if truthy u then u else VArr []))))
  | AddCredits p amount source =>
      Return ("/api/projects/" +:+ p +:+ "/credits",
              post_json "POST"
                (VObj [("amount", VNum amount); ("source", optional_string source)]),
              λ r, get_prop r "balance")
  | VerifyContent p pageUrl suggestionId =>
      Return ("/api/projects/" +:+ p +:+ "/verify-content",
              post_json "POST"
                (VObj [("pageUrl", VStr pageUrl);
                       ("suggestionId", optional_string suggestionId)]),
              λ r, get_prop r "verification")
  end.

(** What the server's answer to one call makes of [request]. *)
Definition settle (answer : outcome Response) : outcome value :=
  match answer with
  | Throw e => Throw e
  | Return response =>
      if ok response then json response else failure_outcome response
  end.

(** A date that is left out, or that [toISOString] accepts. *)
Definition date_valid (d : option date) : bool :=
  match d with
  | Some d => match date_toISOString d with Some _ => true | None => false end
  | None => true
  end.

Definition dates_valid (dateRange : option DateRange) : bool :=
  date_valid (dateRange ≫= startDate) && date_valid (dateRange ≫= endDate).

Definition credit_fields (includeHistory : option bool)
    (dateRange : option DateRange) : list (string * option string) :=
  [("includeHistory", if default false includeHistory then Some "true" else None);
   ("startDate", (dateRange ≫= startDate) ≫= date_toISOString);
   ("endDate", (dateRange ≫= endDate) ≫= date_toISOString)].

Definition outcome_error {A} (o : outcome A) : option exn :=
  match o with Throw e => Some e | Return _ => None end.

(** The exception that ends a method before it calls [request], when there
    is one: an invalid date, or a body that [JSON.stringify] cannot
    write. *)
Definition fails_before_request (op : operation) : option exn :=
  match op with
  | ImplementLinks _ ids options =>
      outcome_error
        (stringify_object
           (obj_spread [("suggestionIds", Plain (VArr (VStr <$> ids)))] options))
  | RollbackImplementation _ _ _ credentials =>
      outcome_error (stringify_property credentials)
  | GetCredits _ _ d | GetCreditUsage _ d =>
      if dates_valid d then None else Some RangeError
  | _ => None
  end.

Definition sends_request (op : operation) : bool :=
  match fails_before_request op with None => true | Some _ => false end.



(** How [Array.prototype.join] writes one element. *)
Definition element_text (e : value) : outcome string :=
  match e with
  | VUndefined | VNull => Return ""
  | _ => ToString e
  end.

End Plans.

Section MoreSamples.
#[local] Existing Instance integer_host.

(** A server that cannot be reached. *)
Definition unreachable (e : exn) : list FetchCall → FetchCall → outcome Response :=
  λ _ _, Throw e.

Definition invalid_start : DateRange :=
  {| startDate := Some None; endDate := None |}.

Definition valid_range : DateRange :=
  {| startDate := Some (Some "2024-01-01T00:00:00.000Z");
     endDate := Some (Some "2024-02-01T00:00:00.000Z") |}.

Definition response_no_content : Response :=
  {| status := 204; statusText := "No Content"; json := Throw SyntaxError |}.

Definition response_empty_object : Response :=
  {| status := 200; statusText := "OK"; json := Return (VObj []) |}.

Definition response_success_null : Response :=
  {| status := 200; statusText := "OK"; json := Return VNull |}.

Definition response_error_object : Response :=
  {| status := 422; statusText := "Unprocessable Entity";
     json := Return (VObj [("error", VObj [("code", VNum 7%Z);
                                           ("message", VStr "bad field")])]) |}.

(** A world in which one request was made before. *)
Definition busy_world : World :=
  {| this := sample_client;
     wire := [request_call sample_client "/x" no_options] |}.


(** Credentials that hold themselves: [JSON.stringify] raises on them. *)
Definition cyclic_credentials : any := Foreign (Throw TypeError).

End MoreSamples.

(** ** Properties of the string helpers *)

Example decimal_500 : decimal 500 = "500".
Proof. reflexivity. Qed.

Example form_encode_sample : form_encode "a b&c=d/é" = "a+b%26c%3Dd%2F%C3%A9".
Proof. reflexivity. Qed.

Example replace_trailing_slash_sample :
  replace_trailing_slash "https://host//" = "https://host/".
Proof. reflexivity. Qed.

Lemma replace_trailing_slash_app (s : string) :
  replace_trailing_slash (s +:+ "/") = s.
Proof.
  induction s as [|c s IH]; [reflexivity|].
  change (String c s +:+ "/") with (String c (s +:+ "/")).
  destruct s as [|d s]; [reflexivity|].
  change (replace_trailing_slash (String c (String d s +:+ "/")))
    with (String c (replace_trailing_slash (String d s +:+ "/"))).
  by rewrite IH.
Qed.

Lemma replace_trailing_slash_id (s : string) :
  ends_with_slash s = false → replace_trailing_slash s = s.
Proof.
  induction s as [|c s IH]; [reflexivity|]. intros Hend.
  destruct s as [|d s].
  - cbn in *. by rewrite Hend.
  - change (replace_trailing_slash (String c (String d s)))
      with (String c (replace_trailing_slash (String d s))).
    f_equal. by apply IH.
Qed.

Lemma contains_char_app (c : ascii) (s t : string) :
  contains_char c (s +:+ t) = contains_char c s || contains_char c t.
Proof.
  induction s as [|d s IH]; [reflexivity|].
  simpl. rewrite IH. by rewrite orb_assoc.
Qed.

Lemma form_encode_byte_no_delimiter (c : ascii) :
  contains_char "?" (form_encode_byte c) = false
  ∧ contains_char "&" (form_encode_byte c) = false
  ∧ contains_char "=" (form_encode_byte c) = false.
Proof. destruct c as [[] [] [] [] [] [] [] []]; vm_compute; done. Qed.

(** The serializer escapes the characters that delimit a query string. *)
Lemma form_encode_no_delimiter (s : string) :
  contains_char "?" (form_encode s) = false
  ∧ contains_char "&" (form_encode s) = false
  ∧ contains_char "=" (form_encode s) = false.
Proof.
  induction s as [|c s (IH1 & IH2 & IH3)]; [done|].
  simpl form_encode. rewrite !contains_char_app, IH1, IH2, IH3.
  destruct (form_encode_byte_no_delimiter c) as (-> & -> & ->). done.
Qed.

Lemma params_toString_no_question_mark (params : URLSearchParams) :
  contains_char "?" (params_toString params) = false.
Proof.
  unfold params_toString.
  induction params as [|p params IH]; [reflexivity|].
  assert (Hp : contains_char "?" (form_pair p) = false).
  { unfold form_pair. rewrite !contains_char_app.
    destruct (form_encode_no_delimiter p.1) as (-> & _).
    destruct (form_encode_no_delimiter p.2) as (-> & _). reflexivity. }
  cbn [fmap list_fmap String.concat]. fold (form_pair <$> params) in *.
  destruct (form_pair <$> params) as [|q qs] eqn:Hq; [done|].
  rewrite !contains_char_app, Hp. cbn [orb]. exact IH.
Qed.

Lemma params_toString_truthy (params : URLSearchParams) :
  string_truthy (params_toString params) = negb (bool_decide (params = [])).
Proof.
  destruct params as [|p params]; [reflexivity|].
  unfold params_toString. cbn [fmap list_fmap]. fold (form_pair <$> params).
  assert (Hp : ∀ t, string_truthy (form_pair p +:+ t) = true).
  { intros t. unfold form_pair. destruct (form_encode p.1); reflexivity. }
  cbn [String.concat]. destruct (form_pair <$> params).
  - specialize (Hp ""). destruct (form_pair p); [discriminate|reflexivity].
  - apply Hp.
Qed.

(** ** Properties of [request] *)

Section Properties.
Context `{!Host}.
Variable net : list FetchCall → FetchCall → outcome Response.

Ltac run_request :=
  unfold request, bind, get_this, fetch, catch, lift, ret, throw; cbn.

(** [request] calls [fetch] once, whatever happens next. *)
Lemma request_world (endpoint : string) (options : RequestInit) (w : World) :
  (request net endpoint options w).2 = sent w (request_call (this w) endpoint options).
Proof.
  run_request. fold (request_call (this w) endpoint options).
  destruct (net _ _) as [response|e]; [|reflexivity].
  destruct (ok response); cbn; [reflexivity|].
  destruct (json response) as [data|e]; cbn.
  - destruct (get_prop data "error") as [error|e]; cbn; [|reflexivity].
    destruct (truthy error); cbn; [|reflexivity].
    destruct (ToString error); reflexivity.
  - reflexivity.
Qed.

Lemma request_outcome (endpoint : string) (options : RequestInit) (w : World) :
  (request net endpoint options w).1 =
  match net (wire w) (request_call (this w) endpoint options) with
  | Throw e => Throw e
  | Return response =>
      if ok response then json response else failure_outcome response
  end.
Proof.
  run_request. fold (request_call (this w) endpoint options).
  destruct (net _ _) as [response|e]; [|reflexivity].
  unfold failure_outcome.
  destruct (ok response); cbn; [reflexivity|].
  destruct (json response) as [data|e]; cbn.
  - destruct (get_prop data "error") as [error|e]; cbn; [|reflexivity].
    destruct (truthy error); cbn; [|reflexivity].
    destruct (ToString error); reflexivity.
  - reflexivity.
Qed.

Lemma failure_outcome_throws (response : Response) :
  is_Return (failure_outcome response) = false.
Proof.
  unfold failure_outcome.
  destruct (get_prop _ "error") as [error|e]; cbn; [|reflexivity].
  destruct (truthy error); cbn; [|reflexivity].
  destruct (ToString error); reflexivity.
Qed.

Lemma bind_ret_world {A B} (m : M World A) (b : B) (w : World) :
  (bind m (λ _, ret b) w).2 = (m w).2.
Proof. unfold bind. by destruct (m w) as [[a|e] w']. Qed.

Lemma bind_pure_world {A B} (m : M World A) (k : A → M World B) (w : World) :
  (∀ a w', (k a w').2 = w') → (bind m k w).2 = (m w).2.
Proof.
  intros Hk. unfold bind. destruct (m w) as [[a|e] w']; [apply Hk|reflexivity].
Qed.

Lemma lift_world {A} (o : outcome A) (w : World) : (lift o w).2 = w.
Proof. reflexivity. Qed.

Lemma bind_lift_ret_world {A B} (o : outcome A) (f : A → B) (w : World) :
  (bind (lift o) (λ a, ret (f a)) w).2 = w.
Proof. unfold bind, lift, ret. by destruct o. Qed.

(** *** Methods leave the instance alone *)

Lemma keeps_this_ret {A} (a : A) : keeps_this (ret a).
Proof. by intros w. Qed.

Lemma keeps_this_throw {A} (e : exn) : keeps_this (@throw World A e).
Proof. by intros w. Qed.

Lemma keeps_this_lift {A} (o : outcome A) : keeps_this (lift o).
Proof. by intros w. Qed.

Lemma keeps_this_bind {A B} (m : M World A) (k : A → M World B) :
  keeps_this m → (∀ a, keeps_this (k a)) → keeps_this (bind m k).
Proof.
  intros Hm Hk w. unfold bind. specialize (Hm w).
  destruct (m w) as [[a|e] w']; cbn in *; [|done].
  by rewrite Hk.
Qed.

Lemma keeps_this_request (endpoint : string) (options : RequestInit) :
  keeps_this (request net endpoint options).
Proof. intros w. by rewrite request_world. Qed.

Create HintDb frame discriminated.
#[local] Hint Resolve keeps_this_ret keeps_this_throw keeps_this_lift
  keeps_this_request : frame.
#[local] Hint Extern 2 (keeps_this (bind _ _)) =>
  apply keeps_this_bind; [|intros ?] : frame.

Lemma keeps_this_perform (op : operation) : keeps_this (perform net op).
Proof.
  destruct op; cbn [perform];
    unfold getSuggestions, approveSuggestion, rejectSuggestion, implementLinks,
      getImplementation, getImplementations, rollbackImplementation,
      getCreditUsage, getCredits, addCredits, verifyContent;
    auto 10 with frame.
Qed.

Lemma getCredits_world (projectId : string) (includeHistory : option bool)
    (dateRange : option DateRange) (w : World) :
  (getCredits net projectId includeHistory dateRange w).2 = w
  ∨ ∃ call, (getCredits net projectId includeHistory dateRange w).2 = sent w call
            ∧ headers (init call) = Some (default_headers (apiKey (this w))).
Proof.
  unfold getCredits, bind, lift.
  destruct (credits_params includeHistory dateRange) as [params|e]; [|by left].
  right. eexists. split; [apply request_world|reflexivity].
Qed.

(** A public method makes at most one call of [fetch], and that call
    carries the two default headers and no other. *)
Lemma perform_world (op : operation) (w : World) :
  (perform net op w).2 = w
  ∨ ∃ call, (perform net op w).2 = sent w call
            ∧ headers (init call) = Some (default_headers (apiKey (this w))).
Proof.
  destruct op; cbn [perform];
    try apply getCredits_world;
    try (unfold implementLinks, rollbackImplementation, bind, lift;
         destruct (stringify_object _); [|by left];
         right; eexists; split; [apply request_world|reflexivity]);
    try (unfold getCreditUsage;
         rewrite bind_pure_world by (intros; apply bind_lift_ret_world);
         apply getCredits_world);
    right; eexists;
    unfold getSuggestions, approveSuggestion, rejectSuggestion, implementLinks,
      getImplementation, getImplementations, rollbackImplementation,
      addCredits, verifyContent;
    (split;
     [ first [ apply request_world
             | rewrite bind_pure_world by (intros; first [apply lift_world | reflexivity]);
               apply request_world ]
     | reflexivity ]).
Qed.

Lemma perform_all_snoc (ops : list operation) (op : operation) (w : World) :
  perform_all net (ops ++ [op]) w = (perform net op (perform_all net ops w)).2.
Proof. unfold perform_all. by rewrite foldl_app. Qed.

End Properties.

(** ** The client's contract *)

Section Contract.
Context `{!Host}.
Variable net : list FetchCall → FetchCall → outcome Response.

(** C2.  Constructing the client without an API key, or with the empty
    string as API key, raises [Error "API key is required"] (the
    configuration error) and leaves the list of [fetch] calls as it was;
    with any non-empty API key the construction succeeds, again without a
    call of [fetch]. *)
Theorem constructor_requires_api_key (base : option string) (calls : list FetchCall) :
  constructor None base calls = (Throw (Error "API key is required"), calls)
  ∧ constructor (Some "") base calls = (Throw (Error "API key is required"), calls)
  ∧ ∀ c key,
      constructor (Some (String c key)) base calls =
      (Return {| apiKey := String c key;
                 baseUrl := replace_trailing_slash
                              (default "https://rankvectors.com" base) |},
       calls).
Proof. repeat split. Qed.

(** C6.  The constructor removes one trailing slash of the base URL: a
    base URL written with a trailing slash gives the same client, and the
    same URL for every endpoint, as the base URL without it, and a base URL
    that ends in two slashes keeps one. *)
Theorem base_url_trailing_slash (base key : string) (calls : list FetchCall) :
  string_truthy key = true →
  ends_with_slash base = false →
  constructor (Some key) (Some (base +:+ "/")) calls
    = constructor (Some key) (Some base) calls
  ∧ constructor (Some key) (Some (base +:+ "/")) calls
    = (Return {| apiKey := key; baseUrl := base |}, calls)
  ∧ (∀ c endpoint options w,
       (constructor (Some key) (Some (base +:+ "/")) calls).1 = Return c →
       this w = c →
       wire (request net endpoint options w).2
       = wire w ++ [request_call c endpoint options]
       ∧ url (request_call c endpoint options) = base +:+ endpoint)
  ∧ (constructor (Some key) (Some (base +:+ "//")) calls).1
    = Return {| apiKey := key; baseUrl := base +:+ "/" |}.
Proof.
  intros Hkey Hbase. unfold constructor, ret. cbn [from_option default id].
  rewrite Hkey. cbn [negb fst from_option id].
  rewrite replace_trailing_slash_app, (replace_trailing_slash_id base Hbase).
  split_and!; try reflexivity.
  - intros c endpoint options w [= <-] Hw. rewrite request_world. by rewrite Hw.
  - assert (Happ : base +:+ "//" = (base +:+ "/") +:+ "/").
    { clear. induction base as [|c base IH]; [done|].
      change (String c (base +:+ "//") = String c ((base +:+ "/") +:+ "/")).
      by f_equal. }
    by rewrite Happ, replace_trailing_slash_app.
Qed.

(** C5.  On a response whose status is in 200..299, [request] settles with
    what [response.json()] settles with, untouched, after one call of
    [fetch]; and [getSuggestions] returns the [suggestions] property of the
    parsed envelope as it is. *)
Theorem success_returns_body_as_is (w : World) (response : Response) :
  ok response = true →
  (∀ endpoint options,
     net (wire w) (request_call (this w) endpoint options) = Return response →
     request net endpoint options w
     = (json response, sent w (request_call (this w) endpoint options)))
  ∧ (∀ projectId filters props suggestions,
       net (wire w)
           (request_call (this w) (suggestions_endpoint projectId filters) no_options)
         = Return response →
       json response = Return (VObj props) →
       obj_lookup "suggestions" props = Some suggestions →
       (getSuggestions net projectId filters w).1 = Return suggestions).
Proof.
  intros Hok. split.
  - intros endpoint options Hnet.
    rewrite (surjective_pairing (request _ _ _ _)).
    by rewrite request_outcome, request_world, Hnet, Hok.
  - intros projectId filters props suggestions Hnet Hjson Hfield.
    unfold getSuggestions, bind.
    pose proof (request_outcome net (suggestions_endpoint projectId filters)
                  no_options w) as Hout.
    rewrite Hnet, Hok, Hjson in Hout.
    destruct (request _ _ _ _) as [o w']. cbn in Hout. subst o.
    unfold lift. cbn. by rewrite Hfield.
Qed.

(** A response without a usable [error] property gives the synthesized
    message: a body that is not JSON, or one that parses to something other
    than [null] and has no [error] property. *)
Lemma request_failed_fallback (endpoint : string) (options : RequestInit)
    (w : World) (response : Response) :
  net (wire w) (request_call (this w) endpoint options) = Return response →
  ok response = false →
  (∀ e, json response = Throw e →
        (request net endpoint options w).1 = Throw (Error (failure_message response)))
  ∧ (∀ data, json response = Return data →
             get_prop data "error" = Return VUndefined →
             (request net endpoint options w).1
             = Throw (Error (failure_message response))).
Proof.
  intros Hnet Hok. rewrite request_outcome, Hnet, Hok. unfold failure_outcome.
  split.
  - by intros e ->.
  - by intros data -> ->.
Qed.

(** C1 (amended).  On a response whose status is outside 200..299 the call
    raises and returns no result.  When the parsed body has an [error]
    property with a truthy value, the call raises an [Error] whose message
    is that value converted to a string, a non-empty string being the
    message itself; when the conversion raises, as it does for an object
    with a property named [toString], the call raises that exception.
    When the [error] property is there with a falsy value, such as the
    empty string, the message is the synthesized one. *)
Theorem request_failed_message (endpoint : string) (options : RequestInit)
    (w : World) (response : Response) :
  net (wire w) (request_call (this w) endpoint options) = Return response →
  ok response = false →
  is_Return (request net endpoint options w).1 = false
  ∧ (∀ data error,
       json response = Return data →
       get_prop data "error" = Return error →
       truthy error = true →
       (request net endpoint options w).1
       = match ToString error with
         | Return message => Throw (Error message)
         | Throw e => Throw e
         end)
  ∧ (∀ props c s,
       json response = Return (VObj props) →
       obj_lookup "error" props = Some (VStr (String c s)) →
       (request net endpoint options w).1 = Throw (Error (String c s)))
  ∧ (∀ data error,
       json response = Return data →
       get_prop data "error" = Return error →
       truthy error = false →
       (request net endpoint options w).1
       = Throw (Error (failure_message response)))
  ∧ (∀ data inner,
       json response = Return data →
       get_prop data "error" = Return (VObj inner) →
       (request net endpoint options w).1
       = match obj_lookup "toString" inner with
         | Some _ => Throw TypeError
         | None => Throw (Error "[object Object]")
         end).
Proof.
  intros Hnet Hok. rewrite request_outcome, Hnet, Hok.
  split_and!.
  - apply failure_outcome_throws.
  - intros data error Hjson Hget Htrue.
    unfold failure_outcome. rewrite Hjson, Hget. cbn. rewrite Htrue.
    by destruct (ToString error).
  - intros props c s Hjson Hfield.
    unfold failure_outcome. rewrite Hjson. cbn. by rewrite Hfield.
  - intros data error Hjson Hget Hfalse.
    unfold failure_outcome. by rewrite Hjson, Hget; cbn; rewrite Hfalse.
  - intros data inner Hjson Hget.
    unfold failure_outcome. rewrite Hjson, Hget. cbn.
    by destruct (obj_lookup "toString" inner).
Qed.

Lemma merged_headers_lookup (key : string) (options : RequestInit) (name : string) :
  merged_headers key options !! name =
  match default ∅ (headers options) !! name with
  | Some v => Some v
  | None => default_headers key !! name
  end.
Proof.
  unfold merged_headers. rewrite lookup_union.
  destruct (default ∅ (headers options) !! name) as [v|];
    destruct (default_headers key !! name); reflexivity.
Qed.

(** C7 (amended).  A call of [request] makes one call of [fetch].  Its
    headers are the caller's headers laid over [Authorization: Bearer
    <apiKey>] and [Content-Type: application/json]: a header the caller
    supplies under one of these two names takes the place of the default,
    and when the caller supplies neither, both defaults are sent.  The
    public methods supply no headers: a call of [fetch] they make carries
    the two defaults alone. *)
Theorem request_headers (endpoint : string) (options : RequestInit) (w : World) :
  let caller := default ∅ (headers options) in
  let sent_headers := merged_headers (apiKey (this w)) options in
  wire (request net endpoint options w).2
    = wire w ++ [request_call (this w) endpoint options]
  ∧ headers (init (request_call (this w) endpoint options)) = Some sent_headers
  ∧ (∀ name v, caller !! name = Some v → sent_headers !! name = Some v)
  ∧ (caller !! "Authorization" = None →
     sent_headers !! "Authorization" = Some ("Bearer " +:+ apiKey (this w)))
  ∧ (caller !! "Content-Type" = None →
     sent_headers !! "Content-Type" = Some "application/json")
  ∧ (∀ name, name ≠ "Authorization" → name ≠ "Content-Type" →
             sent_headers !! name = caller !! name)
  ∧ (∀ op, (perform net op w).2 = w
           ∨ ∃ call, (perform net op w).2 = sent w call
                     ∧ headers (init call)
                       = Some (default_headers (apiKey (this w)))).
Proof.
  cbn zeta. split_and!; [| | | | | |intros op; apply perform_world].
  - by rewrite request_world.
  - reflexivity.
  - intros name v Hv. by rewrite merged_headers_lookup, Hv.
  - intros Hnone. rewrite merged_headers_lookup, Hnone. reflexivity.
  - intros Hnone. rewrite merged_headers_lookup, Hnone. reflexivity.
  - intros name Ha Hc. rewrite merged_headers_lookup.
    destruct (default ∅ (headers options) !! name); [done|].
    unfold default_headers. by rewrite !lookup_insert_ne, lookup_empty.
Qed.

Lemma merged_headers_none (key : string) (options : RequestInit) :
  headers options = None → merged_headers key options = default_headers key.
Proof. intros Hnone. unfold merged_headers. rewrite Hnone. apply (left_id_L ∅ (∪)). Qed.

(** C8.  [approveSuggestion] sends one PATCH request to
    [/api/projects/suggestions/{id}] whose body is the JSON text of
    [{status: "approved"}], and [rejectSuggestion] one to the same path
    whose body is the JSON text of [{status: "rejected"}]. *)
Theorem approve_reject_requests (suggestionId : string) (w : World) :
  wire (approveSuggestion net suggestionId w).2
    = wire w ++
      [{| url := baseUrl (this w) +:+ "/api/projects/suggestions/" +:+ suggestionId;
          init := {| method := Some "PATCH";
                     body := Some (status_json "approved");
                     headers := Some (default_headers (apiKey (this w))) |} |}]
  ∧ wire (rejectSuggestion net suggestionId w).2
    = wire w ++
      [{| url := baseUrl (this w) +:+ "/api/projects/suggestions/" +:+ suggestionId;
          init := {| method := Some "PATCH";
                     body := Some (status_json "rejected");
                     headers := Some (default_headers (apiKey (this w))) |} |}].
Proof.
  split.
  - unfold approveSuggestion. rewrite bind_ret_world, request_world.
    unfold sent, request_call. cbn [wire this method body headers].
    by rewrite merged_headers_none.
  - unfold rejectSuggestion. rewrite bind_ret_world, request_world.
    unfold sent, request_call. cbn [wire this method body headers].
    by rewrite merged_headers_none.
Qed.

(** C9.  No sequence of public calls changes the configuration of the
    instance: after the calls, [apiKey] and [baseUrl] are what the
    constructor stored. *)
Theorem configuration_is_fixed (ops : list operation) (w : World) :
  this (perform_all net ops w) = this w
  ∧ apiKey (this (perform_all net ops w)) = apiKey (this w)
  ∧ baseUrl (this (perform_all net ops w)) = baseUrl (this w).
Proof.
  assert (Hthis : this (perform_all net ops w) = this w).
  { induction ops as [|op ops IH] using rev_ind; [reflexivity|].
    rewrite perform_all_snoc, keeps_this_perform. exact IH. }
  by rewrite Hthis.
Qed.

(** C10 (amended).  When [getCredits] with [includeHistory] set succeeds,
    [getCreditUsage] returns the [usageHistory] property of its result when
    that property is truthy, as every array is, and the empty list when the
    property is missing, [null] or another falsy value. *)
Theorem credit_usage_or_empty (projectId : string) (dateRange : option DateRange)
    (w : World) (result usageHistory : value) :
  (getCredits net projectId (Some true) dateRange w).1 = Return result →
  get_prop result "usageHistory" = Return usageHistory →
  (getCreditUsage net projectId dateRange w).1
    = Return (if truthy usageHistory then usageHistory else VArr [])
  ∧ (getCreditUsage net projectId dateRange w).2
    = (getCredits net projectId (Some true) dateRange w).2
  ∧ (∀ entries, usageHistory = VArr entries →
       (getCreditUsage net projectId dateRange w).1 = Return (VArr entries))
  ∧ (usageHistory = VUndefined ∨ usageHistory = VNull →
       (getCreditUsage net projectId dateRange w).1 = Return (VArr []))
  ∧ (∀ props, result = VObj props → obj_lookup "usageHistory" props = None →
       (getCreditUsage net projectId dateRange w).1 = Return (VArr [])).
Proof.
  intros Hcredits Hget.
  assert (Hrun : getCreditUsage net projectId dateRange w
                 = (Return (if truthy usageHistory then usageHistory else VArr []),
                    (getCredits net projectId (Some true) dateRange w).2)).
  { unfold getCreditUsage, bind.
    destruct (getCredits _ _ _ _ _) as [[r|e] w']; cbn in Hcredits; [|done].
    injection Hcredits as ->. unfold lift, ret. by rewrite Hget. }
  rewrite Hrun. cbn [fst snd]. split_and!; try done.
  - by intros entries ->.
  - by intros [-> | ->].
  - intros props -> Hnone. cbn in Hget. rewrite Hnone in Hget.
    by injection Hget as <-.
Qed.

Lemma render_present_sublist (fields : list (string * option string)) :
  (render_present fields).*1 `sublist_of` fields.*1.
Proof.
  induction fields as [|[name [v|]] fields IH]; cbn.
  - constructor.
  - by constructor.
  - by constructor.
Qed.

Lemma elem_of_render_present (fields : list (string * option string))
    (name v : string) :
  (name, v) ∈ render_present fields ↔ (name, Some v) ∈ fields.
Proof.
  unfold render_present. rewrite list_elem_of_omap. split.
  - intros ([k [u|]] & Hin & Heq); cbn in Heq; [|done].
    by injection Heq as -> ->.
  - intros Hin. by exists (name, Some v).
Qed.

Lemma with_query_cases (path : string) (params : URLSearchParams) :
  with_query path params
  = if bool_decide (params = []) then path
    else path +:+ "?" +:+ params_toString params.
Proof.
  unfold with_query. rewrite params_toString_truthy.
  case_bool_decide; [|reflexivity].
  change (path +:+ "" = path).
  clear. induction path as [|c path IH]; [done|].
  change (String c (path +:+ "") = String c path). by f_equal.
Qed.

Lemma suggestions_params_render (filters : option SuggestionFilters) :
  suggestions_params filters = render_present (suggestion_fields filters).
Proof.
  unfold suggestions_params, suggestion_fields, render_present, append_if,
    given_truthy, params_append.
  destruct filters as [[[s|] [l|] [o|]]|]; cbn;
    repeat (case_match; cbn); reflexivity.
Qed.

Lemma implementations_params_render (filters : option ImplementationFilters) :
  implementations_params filters = render_present (implementation_fields filters).
Proof.
  unfold implementations_params, implementation_fields, render_present, append_if,
    given_truthy, params_append.
  destruct filters as [[[s|] [p|] [l|] [o|]]|]; cbn;
    repeat (case_match; cbn); reflexivity.
Qed.

(** C3 (amended).  A listing operation renders exactly the filter fields
    that were given a truthy value (a non-empty string, a number other than
    zero and NaN): each once, in the fixed order status, platform, limit,
    offset, with its own value.  When no field is truthy nothing is added to
    the path, not even a question mark; otherwise a question mark and the
    serialized pairs follow the path, and the serialized pairs contain no
    question mark of their own.  The operation makes one request, and its
    URL is the base URL followed by that path and query. *)
Theorem listing_query_renders_truthy_fields (projectId : string) :
  (∀ filters : option SuggestionFilters,
     let params := suggestions_params filters in
     let path := "/api/projects/" +:+ projectId +:+ "/suggestions" in
     params = render_present (suggestion_fields filters)
     ∧ params.*1 `sublist_of` ["status"; "limit"; "offset"]
     ∧ NoDup params.*1
     ∧ (∀ name v, (name, v) ∈ params ↔ (name, Some v) ∈ suggestion_fields filters)
     ∧ suggestions_endpoint projectId filters
       = (if bool_decide (params = []) then path
          else path +:+ "?" +:+ params_toString params)
     ∧ contains_char "?" (params_toString params) = false
     ∧ ∀ w, wire (getSuggestions net projectId filters w).2
            = wire w ++
              [{| url := baseUrl (this w) +:+
                         (if bool_decide (params = []) then path
                          else path +:+ "?" +:+ params_toString params);
                  init := {| method := None; body := None;
                             headers := Some (default_headers (apiKey (this w))) |}
               |}])
  ∧ (∀ filters : option ImplementationFilters,
       let params := implementations_params filters in
       let path := "/api/projects/" +:+ projectId +:+ "/implementations" in
       params = render_present (implementation_fields filters)
       ∧ params.*1 `sublist_of` ["status"; "platform"; "limit"; "offset"]
       ∧ NoDup params.*1
       ∧ (∀ name v,
            (name, v) ∈ params ↔ (name, Some v) ∈ implementation_fields filters)
       ∧ implementations_endpoint projectId filters
         = (if bool_decide (params = []) then path
            else path +:+ "?" +:+ params_toString params)
       ∧ contains_char "?" (params_toString params) = false
       ∧ ∀ w, wire (getImplementations net projectId filters w).2
              = wire w ++
                [{| url := baseUrl (this w) +:+
                           (if bool_decide (params = []) then path
                            else path +:+ "?" +:+ params_toString params);
                    init := {| method := None; body := None;
                               headers := Some (default_headers (apiKey (this w))) |}
                 |}]).
Proof.
  split; intros filters; cbn zeta.
  - assert (Hsub : (suggestions_params filters).*1
                   `sublist_of` ["status"; "limit"; "offset"]).
    { rewrite suggestions_params_render.
      apply (render_present_sublist (suggestion_fields filters)). }
    split_and!.
    + apply suggestions_params_render.
    + exact Hsub.
    + eapply sublist_NoDup; [|exact Hsub]. by apply (bool_decide_unpack _).
    + intros name v. rewrite suggestions_params_render.
      apply elem_of_render_present.
    + apply with_query_cases.
    + apply params_toString_no_question_mark.
    + intros w. unfold getSuggestions.
      rewrite bind_pure_world by (intros; apply lift_world).
      rewrite request_world. unfold sent, request_call, suggestions_endpoint.
      cbn [wire this method body headers no_options].
      by rewrite with_query_cases, merged_headers_none.
  - assert (Hsub : (implementations_params filters).*1
                   `sublist_of` ["status"; "platform"; "limit"; "offset"]).
    { rewrite implementations_params_render.
      apply (render_present_sublist (implementation_fields filters)). }
    split_and!.
    + apply implementations_params_render.
    + exact Hsub.
    + eapply sublist_NoDup; [|exact Hsub]. by apply (bool_decide_unpack _).
    + intros name v. rewrite implementations_params_render.
      apply elem_of_render_present.
    + apply with_query_cases.
    + apply params_toString_no_question_mark.
    + intros w. unfold getImplementations.
      rewrite bind_pure_world by (intros; apply lift_world).
      rewrite request_world. unfold sent, request_call, implementations_endpoint.
      cbn [wire this method body headers no_options].
      by rewrite with_query_cases, merged_headers_none.
Qed.

End Contract.

(** ** The contract on concrete requests *)

Section Concrete.
#[local] Existing Instance integer_host.

(** C1, as first stated, fails on a 404 response whose body is
    [{"error": ""}]: the [error] property is there, and the message is not
    its value but the synthesized one. *)
Lemma request_failed_empty_error_field :
  ok response_empty_error = false
  ∧ json response_empty_error = Return (VObj [("error", VStr "")])
  ∧ obj_lookup "error" [("error", VStr "")] = Some (VStr "")
  ∧ (request (always response_empty_error) "/x" no_options sample_world).1
    = Throw (Error "API request failed: 404 Not Found")
  ∧ (request (always response_empty_error) "/x" no_options sample_world).1
    ≠ Throw (Error "").
Proof.
  assert (Hrun : (request (always response_empty_error) "/x" no_options
                    sample_world).1
                 = Throw (Error "API request failed: 404 Not Found")).
  { rewrite request_outcome. reflexivity. }
  split_and!;
    [reflexivity | reflexivity | reflexivity | exact Hrun | by rewrite Hrun].
Qed.

(** A 404 response with body [{"error":"not found"}] fails with the message
    [not found]. *)
Lemma request_failed_message_not_found :
  always response_not_found (wire sample_world)
    (request_call (this sample_world) "/x" no_options) = Return response_not_found
  ∧ ok response_not_found = false
  ∧ (request (always response_not_found) "/x" no_options sample_world).1
    = Throw (Error "not found").
Proof.
  split; [reflexivity|]. split; [reflexivity|].
  refine (proj1 (proj2 (proj2
    (request_failed_message (always response_not_found) "/x" no_options
       sample_world response_not_found eq_refl eq_refl)))
    [("error", VStr "not found")] "n"%char "ot found" eq_refl eq_refl).
Defined.

(** C4 at a 500 response whose body is the JSON text [null]: the body
    parses, it has no [error] property, and reading the property raises a
    [TypeError] in place of the status message; a body that is not JSON
    gives the status message. *)
Lemma request_failed_null_body :
  ok response_null_body = false
  ∧ json response_null_body = Return VNull
  ∧ (request (always response_null_body) "/x" no_options sample_world).1
    = Throw TypeError
  ∧ (request (always response_not_json) "/x" no_options sample_world).1
    = Throw (Error "API request failed: 500 Internal Server Error").
Proof.
  split_and!;
    [reflexivity | reflexivity | by rewrite request_outcome
    | by rewrite request_outcome].
Qed.

(** A 200 response with body [{"suggestions":[...]}] makes [getSuggestions]
    return that list. *)
Lemma success_returns_sample_suggestions :
  ok response_suggestions = true
  ∧ request (always response_suggestions) "/x" no_options sample_world
    = (Return (VObj [("suggestions", sample_suggestions)]),
       sent sample_world (request_call sample_client "/x" no_options))
  ∧ (getSuggestions (always response_suggestions) "p1" None sample_world).1
    = Return sample_suggestions.
Proof.
  split; [reflexivity|].
  pose proof (success_returns_body_as_is (always response_suggestions)
                sample_world response_suggestions eq_refl) as [Hrequest Hlist].
  split.
  - exact (Hrequest "/x" no_options eq_refl).
  - exact (Hlist "p1" None [("suggestions", sample_suggestions)]
             sample_suggestions eq_refl eq_refl eq_refl).
Defined.

(** The base URLs [https://host/] and [https://host] give the same client. *)
Lemma base_url_trailing_slash_host :
  string_truthy "key" = true
  ∧ ends_with_slash "https://host" = false
  ∧ constructor (Some "key") (Some "https://host/") []
    = constructor (Some "key") (Some "https://host") []
  ∧ (constructor (Some "key") (Some "https://host//") []).1
    = Return {| apiKey := "key"; baseUrl := "https://host/" |}.
Proof.
  split; [reflexivity|]. split; [reflexivity|].
  pose proof (base_url_trailing_slash (always response_suggestions)
                "https://host" "key" [] eq_refl eq_refl) as (Hsame & _ & _ & Htwo).
  split; [exact Hsame | exact Htwo].
Defined.

(** C7, as first stated, fails when the caller passes an [Authorization]
    header: the request carries the caller's value, not the bearer token. *)
Lemma caller_authorization_header_wins :
  wire (request (always response_suggestions) "/x" options_with_authorization
          sample_world).2
    = [request_call sample_client "/x" options_with_authorization]
  ∧ headers (init (request_call sample_client "/x" options_with_authorization))
      ≫= (.!! "Authorization") = Some "Basic other"
  ∧ headers (init (request_call sample_client "/x" options_with_authorization))
      ≫= (.!! "Authorization") ≠ Some ("Bearer " +:+ apiKey sample_client).
Proof.
  split; [by rewrite request_world|].
  assert (Hlook : headers (init (request_call sample_client "/x"
                                   options_with_authorization))
                    ≫= (.!! "Authorization") = Some "Basic other").
  { change (merged_headers "key" options_with_authorization !! "Authorization"
            = Some "Basic other").
    by rewrite merged_headers_lookup. }
  split; [exact Hlook|]. by rewrite Hlook.
Qed.

(** With no caller headers the request carries the two default headers. *)
Lemma request_headers_default :
  default ∅ (headers no_options) !! "Authorization" = None
  ∧ merged_headers "key" no_options !! "Authorization" = Some "Bearer key"
  ∧ merged_headers "key" no_options !! "Content-Type" = Some "application/json".
Proof.
  pose proof (request_headers (always response_suggestions) "/x" no_options
                sample_world) as (_ & _ & _ & Hauth & Htype & _).
  split; [reflexivity|]. split; [exact (Hauth eq_refl) | exact (Htype eq_refl)].
Defined.

(** C10, as first stated, fails on an envelope whose [usageHistory] is the
    number zero: the property is there and is not [null], and the operation
    returns the empty list in its place. *)
Lemma credit_usage_zero_history :
  (getCredits (always response_usage_zero) "p1" (Some true) None sample_world).1
    = Return (VObj [("balance", VObj []); ("usageHistory", VNum 0%Z)])
  ∧ obj_lookup "usageHistory" [("balance", VObj []); ("usageHistory", VNum 0%Z)]
    = Some (VNum 0%Z)
  ∧ (getCreditUsage (always response_usage_zero) "p1" None sample_world).1
    = Return (VArr [])
  ∧ (getCreditUsage (always response_usage_zero) "p1" None sample_world).1
    ≠ Return (VNum 0%Z).
Proof.
  assert (Hcredits :
    (getCredits (always response_usage_zero) "p1" (Some true) None sample_world).1
    = Return (VObj [("balance", VObj []); ("usageHistory", VNum 0%Z)])).
  { unfold getCredits, bind, lift. cbn [credits_params default from_option id
      append_date outcome_bind option_bind mbind].
    by rewrite request_outcome. }
  assert (Husage :
    (getCreditUsage (always response_usage_zero) "p1" None sample_world).1
    = Return (VArr [])).
  { unfold getCreditUsage, bind.
    destruct (getCredits _ _ _ _ _) as [[r|e] w']; cbn in Hcredits; [|done].
    by injection Hcredits as ->. }
  split_and!; [exact Hcredits | reflexivity | exact Husage | by rewrite Husage].
Qed.

(** An envelope with a list under [usageHistory] gives that list. *)
Lemma credit_usage_sample :
  (getCredits (always response_usage) "p1" (Some true) None sample_world).1
    = Return (VObj [("balance", VObj []); ("usageHistory", sample_usage)])
  ∧ get_prop (VObj [("balance", VObj []); ("usageHistory", sample_usage)])
      "usageHistory" = Return sample_usage
  ∧ (getCreditUsage (always response_usage) "p1" None sample_world).1
    = Return sample_usage.
Proof.
  assert (Hcredits :
    (getCredits (always response_usage) "p1" (Some true) None sample_world).1
    = Return (VObj [("balance", VObj []); ("usageHistory", sample_usage)])).
  { unfold getCredits, bind, lift. cbn [credits_params default from_option id
      append_date outcome_bind option_bind mbind].
    by rewrite request_outcome. }
  split; [exact Hcredits|]. split; [reflexivity|].
  exact (proj1 (credit_usage_or_empty (always response_usage) "p1" None
                  sample_world _ sample_usage Hcredits eq_refl)).
Defined.

(** C3, as first stated, fails on the filter set [{limit: 0}]: the field is
    given, and no parameter is rendered for it. *)
Lemma limit_zero_is_not_rendered :
  suggestion_fields_given (Some filters_limit_zero)
    = [("status", None); ("limit", Some "0"); ("offset", None)]
  ∧ render_present (suggestion_fields_given (Some filters_limit_zero))
    = [("limit", "0")]
  ∧ suggestions_params (Some filters_limit_zero) = []
  ∧ suggestions_params (Some filters_limit_zero)
    ≠ render_present (suggestion_fields_given (Some filters_limit_zero))
  ∧ suggestions_endpoint "p1" (Some filters_limit_zero)
    = "/api/projects/p1/suggestions".
Proof. split_and!; try reflexivity. discriminate. Qed.

End Concrete.

(** ** Further properties: the shape of every public method *)

Section Shape.
Context `{!Host}.
Variable net : list FetchCall → FetchCall → outcome Response.

Lemma bind_lift_run {A B} (m : M World A) (f : A → outcome B) (w : World) :
  bind m (λ a, lift (f a)) w = (outcome_bind (m w).1 f, (m w).2).
Proof. unfold bind, lift. by destruct (m w) as [[a|e] w']. Qed.

Lemma bind_ret_run {A B} (m : M World A) (b : B) (w : World) :
  bind m (λ _, ret b) w = (outcome_bind (m w).1 (λ _, Return b), (m w).2).
Proof. unfold bind, ret. by destruct (m w) as [[a|e] w']. Qed.

Lemma outcome_bind_Return {A} (o : outcome A) : outcome_bind o Return = o.
Proof. by destruct o. Qed.

Lemma request_run (endpoint : string) (options : RequestInit) (w : World) :
  request net endpoint options w
  = (settle (net (wire w) (request_call (this w) endpoint options)),
     sent w (request_call (this w) endpoint options)).
Proof.
  rewrite (surjective_pairing (request net endpoint options w)).
  by rewrite request_outcome, request_world.
Qed.

Lemma getCredits_run (projectId : string) (includeHistory : option bool)
    (dateRange : option DateRange) (w : World) :
  getCredits net projectId includeHistory dateRange w
  = match credits_params includeHistory dateRange with
    | Throw e => (Throw e, w)
    | Return params =>
        request net (with_query ("/api/projects/" +:+ projectId +:+ "/credits") params)
          no_options w
    end.
Proof.
  unfold getCredits, bind, lift.
  by destruct (credits_params includeHistory dateRange).
Qed.

(** Every public method prepares one request, hands it to [request], and
    turns the parsed body into its result without touching the world; the
    two methods that take dates stop before the request when a date is
    invalid. *)
Lemma perform_run (op : operation) (w : World) :
  perform net op w
  = match prepare op with
    | Throw e => (Throw e, w)
    | Return (endpoint, options, post) =>
        let call := request_call (this w) endpoint options in
        (outcome_bind (settle (net (wire w) call)) post, sent w call)
    end.
Proof.
  destruct op; cbn [perform prepare];
    unfold getSuggestions, approveSuggestion, rejectSuggestion, implementLinks,
      getImplementation, getImplementations, rollbackImplementation,
      addCredits, verifyContent, post_json, post_text.
  - by rewrite bind_lift_run, request_run.
  - by rewrite bind_ret_run, request_run.
  - by rewrite bind_ret_run, request_run.
  - unfold bind, lift.
    destruct (stringify_object _) as [text|e]; cbn [outcome_bind]; [|done].
    by rewrite request_run, outcome_bind_Return.
  - by rewrite bind_lift_run, request_run.
  - by rewrite bind_lift_run, request_run.
  - unfold bind, lift.
    destruct (stringify_object _) as [text|e]; cbn [outcome_bind]; [|done].
    by rewrite request_run, outcome_bind_Return.
  - rewrite getCredits_run.
    destruct (credits_params _ _) as [params|e]; cbn [outcome_bind]; [|done].
    by rewrite request_run, outcome_bind_Return.
  - unfold getCreditUsage, bind. rewrite getCredits_run.
    destruct (credits_params _ _) as [params|e]; cbn [outcome_bind]; [|done].
    rewrite request_run. cbn zeta.
    destruct (settle _) as [result|e]; cbn [outcome_bind]; [|done].
    unfold lift, ret. by destruct (get_prop result "usageHistory").
  - by rewrite bind_lift_run, request_run.
  - by rewrite bind_lift_run, request_run.
Qed.

Lemma credits_params_cases (includeHistory : option bool)
    (dateRange : option DateRange) :
  credits_params includeHistory dateRange
  = if dates_valid dateRange
    then Return (render_present (credit_fields includeHistory dateRange))
    else Throw RangeError.
Proof.
  unfold credits_params, dates_valid, date_valid, credit_fields, render_present,
    append_date, params_append.
  destruct dateRange as [[[s|] [e|]]|]; cbn;
    repeat (case_match; cbn); try reflexivity; simplify_eq.
Qed.

Lemma stringify_rollback_error (reason : option string) (credentials : any) :
  outcome_error
    (stringify_object
       [("reason", Plain (optional_string reason)); ("credentials", credentials)])
  = outcome_error (stringify_property credentials).
Proof.
  unfold stringify_object. cbn.
  by destruct (stringify_property credentials) as [[text|]|e].
Qed.

(** A method either stops while it prepares its request, with the exception
    [fails_before_request] names, or has a request to make. *)
Lemma prepare_cases (op : operation) :
  match fails_before_request op with
  | Some e => prepare op = Throw e
  | None => ∃ endpoint options post, prepare op = Return (endpoint, options, post)
  end.
Proof.
  destruct op; cbn [prepare fails_before_request]; try by eexists _, _, _.
  - destruct (stringify_object _); cbn; [by eexists _, _, _|done].
  - match goal with
    | |- context [stringify_object [("reason", Plain (optional_string ?r));
                                     ("credentials", ?c)]] =>
        rewrite <- (stringify_rollback_error r c)
    end.
    destruct (stringify_object _); cbn; [by eexists _, _, _|done].
  - rewrite credits_params_cases. destruct (dates_valid _); cbn; [|done].
    by eexists _, _, _.
  - rewrite credits_params_cases. destruct (dates_valid _); cbn; [|done].
    by eexists _, _, _.
Qed.

(** What a method settles with, and the world it leaves, in the two cases. *)
Lemma perform_cases (op : operation) (w : World) :
  match fails_before_request op with
  | Some e => perform net op w = (Throw e, w)
  | None =>
      ∃ endpoint options post,
        prepare op = Return (endpoint, options, post)
        ∧ perform net op w
          = (outcome_bind
               (settle (net (wire w) (request_call (this w) endpoint options))) post,
             sent w (request_call (this w) endpoint options))
  end.
Proof.
  pose proof (prepare_cases op) as Hprepare. rewrite perform_run.
  destruct (fails_before_request op) as [e|].
  - by rewrite Hprepare.
  - destruct Hprepare as (endpoint & options & post & Hprepare).
    exists endpoint, options, post. by rewrite Hprepare.
Qed.

End Shape.

(** ** Further properties: failures, envelopes and the request log *)

Section Behaviour.
Context `{!Host}.
Variable net : list FetchCall → FetchCall → outcome Response.

Ltac as_operation :=
  repeat match goal with
  | |- context [getSuggestions net ?p ?f ?w] =>
      change (getSuggestions net p f w) with (perform net (GetSuggestions p f) w)
  | |- context [approveSuggestion net ?i ?w] =>
      change (approveSuggestion net i w) with (perform net (ApproveSuggestion i) w)
  | |- context [rejectSuggestion net ?i ?w] =>
      change (rejectSuggestion net i w) with (perform net (RejectSuggestion i) w)
  | |- context [implementLinks net ?p ?i ?o ?w] =>
      change (implementLinks net p i o w) with (perform net (ImplementLinks p i o) w)
  | |- context [getImplementation net ?p ?i ?w] =>
      change (getImplementation net p i w) with (perform net (GetImplementation p i) w)
  | |- context [getImplementations net ?p ?f ?w] =>
      change (getImplementations net p f w)
        with (perform net (GetImplementations p f) w)
  | |- context [rollbackImplementation net ?p ?i ?r ?c ?w] =>
      change (rollbackImplementation net p i r c w)
        with (perform net (RollbackImplementation p i r c) w)
  | |- context [getCredits net ?p ?h ?d ?w] =>
      change (getCredits net p h d w) with (perform net (GetCredits p h d) w)
  | |- context [getCreditUsage net ?p ?d ?w] =>
      change (getCreditUsage net p d w) with (perform net (GetCreditUsage p d) w)
  | |- context [addCredits net ?p ?a ?s ?w] =>
      change (addCredits net p a s w) with (perform net (AddCredits p a s) w)
  | |- context [verifyContent net ?p ?u ?s ?w] =>
      change (verifyContent net p u s w) with (perform net (VerifyContent p u s) w)
  end.

(** X1.  [getCredits] and [getCreditUsage] called with a date that
    [toISOString] rejects fail with a [RangeError] before any request is
    made: the list of [fetch] calls is left as it was. *)
Theorem invalid_date_makes_no_request (projectId : string)
    (includeHistory : option bool) (dateRange : option DateRange) (w : World) :
  dates_valid dateRange = false →
  getCredits net projectId includeHistory dateRange w = (Throw RangeError, w)
  ∧ getCreditUsage net projectId dateRange w = (Throw RangeError, w).
Proof.
  intros Hdates. as_operation. rewrite !perform_run. cbn [prepare].
  rewrite !credits_params_cases, Hdates. done.
Qed.

(** X2.  With valid dates [getCredits] renders [includeHistory] (only when
    it is true), [startDate] and [endDate], in this order, each once and
    only when given, and makes one request to the credits path with that
    query; the request of [getCreditUsage] always starts its query with
    [includeHistory=true]. *)
Theorem credits_query_rendering (projectId : string)
    (includeHistory : option bool) (dateRange : option DateRange) (w : World) :
  dates_valid dateRange = true →
  let path := "/api/projects/" +:+ projectId +:+ "/credits" in
  let params := render_present (credit_fields includeHistory dateRange) in
  credits_params includeHistory dateRange = Return params
  ∧ params.*1 `sublist_of` ["includeHistory"; "startDate"; "endDate"]
  ∧ (("includeHistory", "true") ∈ params ↔ includeHistory = Some true)
  ∧ wire (getCredits net projectId includeHistory dateRange w).2
    = wire w ++ [request_call (this w) (with_query path params) no_options]
  ∧ ∃ dates,
      render_present (credit_fields (Some true) dateRange)
        = ("includeHistory", "true") :: dates
      ∧ wire (getCreditUsage net projectId dateRange w).2
        = wire w ++
          [request_call (this w)
             (path +:+ "?" +:+ params_toString (("includeHistory", "true") :: dates))
             no_options].
Proof.
  intros Hdates. cbn zeta.
  assert (Hparams : ∀ h, credits_params h dateRange
                         = Return (render_present (credit_fields h dateRange))).
  { intros h. by rewrite credits_params_cases, Hdates. }
  split_and!.
  - apply Hparams.
  - apply (render_present_sublist (credit_fields includeHistory dateRange)).
  - rewrite elem_of_render_present. unfold credit_fields.
    rewrite !elem_of_cons, elem_of_nil.
    destruct includeHistory as [[]|]; cbn;
      (split; [intros [?|[?|[?|[]]]]; by simplify_eq
              |intros ?; simplify_eq; by left]).
  - as_operation. rewrite perform_run. cbn [prepare].
    by rewrite Hparams.
  - eexists. split; [reflexivity|].
    as_operation. rewrite perform_run. cbn [prepare]. rewrite Hparams.
    cbn [outcome_bind snd sent wire]. by rewrite with_query_cases.
Qed.

(** X3.  When [fetch] rejects, every public method that makes its request
    rejects with the same reason: nothing is retried and nothing is
    swallowed.  A method that stops before its request, on an invalid date
    or on a body that [JSON.stringify] cannot write, ends with that
    exception and makes no request. *)
Theorem transport_failure_propagates (op : operation) (w : World) (e : exn) :
  (∀ call, net (wire w) call = Throw e) →
  match fails_before_request op with
  | Some early => perform net op w = (Throw early, w)
  | None => ∃ call, perform net op w = (Throw e, sent w call)
  end.
Proof.
  intros Hnet. pose proof (perform_cases net op w) as Hcases.
  destruct (fails_before_request op) as [early|]; [done|].
  destruct Hcases as (endpoint & options & post & _ & ->).
  rewrite Hnet. by eexists.
Qed.

(** X4.  A response with a 2xx status whose body is not JSON, such as an
    empty body, makes every public method that makes its request fail with
    the parser's exception, [approveSuggestion] and [rejectSuggestion]
    included, although they do not use the body. *)
Theorem success_without_json_fails (op : operation) (w : World)
    (response : Response) (e : exn) :
  (∀ call, net (wire w) call = Return response) →
  ok response = true →
  json response = Throw e →
  match fails_before_request op with
  | Some early => perform net op w = (Throw early, w)
  | None => ∃ call, perform net op w = (Throw e, sent w call)
  end
  ∧ (∀ i, (approveSuggestion net i w).1 = Throw e)
  ∧ (∀ i, (rejectSuggestion net i w).1 = Throw e).
Proof.
  intros Hnet Hok Hjson.
  assert (Hsettle : ∀ call, settle (net (wire w) call) = Throw e).
  { intros call. rewrite Hnet. unfold settle. by rewrite Hok. }
  split_and!.
  - pose proof (perform_cases net op w) as Hcases.
    destruct (fails_before_request op) as [early|]; [done|].
    destruct Hcases as (endpoint & options & post & _ & ->).
    rewrite Hsettle. by eexists.
  - intros i. as_operation. rewrite perform_run. cbn [prepare]. cbn zeta.
    by rewrite Hsettle.
  - intros i. as_operation. rewrite perform_run. cbn [prepare]. cbn zeta.
    by rewrite Hsettle.
Qed.

(** X5.  On a 2xx response whose body parses to an object, the methods
    that unwrap an envelope return the named property, or [undefined] when
    the object has no such property: a missing list is not an error.  The
    methods that pass the body through return the object itself, when
    their own body could be written, and [approveSuggestion] and
    [rejectSuggestion] return [undefined]. *)
Theorem envelope_field_or_undefined (w : World) (response : Response)
    (props : list (string * value)) :
  (∀ call, net (wire w) call = Return response) →
  ok response = true →
  json response = Return (VObj props) →
  let field name := Return (default VUndefined (obj_lookup name props)) in
  (∀ p f, (getSuggestions net p f w).1 = field "suggestions")
  ∧ (∀ p i, (getImplementation net p i w).1 = field "implementation")
  ∧ (∀ p f, (getImplementations net p f w).1 = field "implementations")
  ∧ (∀ p a s, (addCredits net p a s w).1 = field "balance")
  ∧ (∀ p u s, (verifyContent net p u s w).1 = field "verification")
  ∧ (∀ p ids o,
       (implementLinks net p ids o w).1
       = match fails_before_request (ImplementLinks p ids o) with
         | Some early => Throw early
         | None => Return (VObj props)
         end)
  ∧ (∀ p i r c,
       (rollbackImplementation net p i r c w).1
       = match stringify_property c with
         | Throw early => Throw early
         | Return _ => Return (VObj props)
         end)
  ∧ (∀ i, (approveSuggestion net i w).1 = Return VUndefined
          ∧ (rejectSuggestion net i w).1 = Return VUndefined).
Proof.
  intros Hnet Hok Hjson. cbn zeta.
  assert (Hsettle : ∀ call, settle (net (wire w) call) = Return (VObj props)).
  { intros call. rewrite Hnet. unfold settle. by rewrite Hok. }
  split_and!; intros; try split; as_operation;
    rewrite perform_run; cbn [prepare fails_before_request]; cbn zeta;
    try (by rewrite Hsettle).
  - destruct (stringify_object _); cbn; [by rewrite Hsettle|done].
  - pose proof (stringify_rollback_error r c) as Herr.
    destruct (stringify_object _) as [text|e1];
      destruct (stringify_property c) as [t|e2];
      cbn [outcome_error] in Herr; try discriminate; cbn [outcome_bind fst].
    + by rewrite Hsettle.
    + by injection Herr as ->.
Qed.

(** X6.  On a 2xx response whose body is the JSON text [null], the methods
    that unwrap an envelope, [getCreditUsage] among them, fail with a
    [TypeError]; the methods that pass the body through, [getCredits] with
    any arguments among them, return [null] when they make their
    request. *)
Theorem null_envelope (w : World) (response : Response) :
  (∀ call, net (wire w) call = Return response) →
  ok response = true →
  json response = Return VNull →
  (∀ p f, (getSuggestions net p f w).1 = Throw TypeError)
  ∧ (∀ p i, (getImplementation net p i w).1 = Throw TypeError)
  ∧ (∀ p f, (getImplementations net p f w).1 = Throw TypeError)
  ∧ (∀ p a s, (addCredits net p a s w).1 = Throw TypeError)
  ∧ (∀ p u s, (verifyContent net p u s w).1 = Throw TypeError)
  ∧ (∀ p d, (getCreditUsage net p d w).1
            = if dates_valid d then Throw TypeError else Throw RangeError)
  ∧ (∀ p h d, (getCredits net p h d w).1
              = if dates_valid d then Return VNull else Throw RangeError)
  ∧ (∀ p ids o,
       (implementLinks net p ids o w).1
       = match fails_before_request (ImplementLinks p ids o) with
         | Some early => Throw early
         | None => Return VNull
         end)
  ∧ (∀ p i r c,
       (rollbackImplementation net p i r c w).1
       = match stringify_property c with
         | Throw early => Throw early
         | Return _ => Return VNull
         end).
Proof.
  intros Hnet Hok Hjson.
  assert (Hsettle : ∀ call, settle (net (wire w) call) = Return VNull).
  { intros call. rewrite Hnet. unfold settle. by rewrite Hok. }
  split_and!; intros; as_operation;
    rewrite perform_run; cbn [prepare fails_before_request];
    rewrite ?credits_params_cases; cbn zeta;
    try (by rewrite Hsettle).
  - destruct (dates_valid d); cbn; [by rewrite Hsettle|done].
  - destruct (dates_valid d); cbn; [by rewrite Hsettle|done].
  - destruct (stringify_object _); cbn; [by rewrite Hsettle|done].
  - pose proof (stringify_rollback_error r c) as Herr.
    destruct (stringify_object _) as [text|e1];
      destruct (stringify_property c) as [t|e2];
      cbn [outcome_error] in Herr; try discriminate; cbn [outcome_bind fst].
    + by rewrite Hsettle.
    + by injection Herr as ->.
Qed.

Lemma perform_wire (op : operation) (w : World) :
  ∃ calls, wire (perform net op w).2 = wire w ++ calls
           ∧ List.length calls = (if sends_request op then 1 else 0)%nat.
Proof.
  pose proof (perform_cases net op w) as Hcases. unfold sends_request.
  destruct (fails_before_request op) as [early|].
  - exists []. rewrite Hcases. cbn. by rewrite app_nil_r.
  - destruct Hcases as (endpoint & options & post & _ & ->). by eexists [_].
Qed.

(** X7.  The list of [fetch] calls only grows: a sequence of public calls
    keeps the earlier calls as a prefix and adds exactly one call for each
    method call that gets as far as its request, none for a method call
    that stops on an invalid date or on a body that cannot be written. *)
Theorem requests_are_only_added (ops : list operation) (w : World) :
  wire w `prefix_of` wire (perform_all net ops w)
  ∧ List.length (wire (perform_all net ops w))
    = (List.length (wire w) + List.length (List.filter sends_request ops))%nat
  ∧ (List.length (wire (perform_all net ops w))
     ≤ List.length (wire w) + List.length ops)%nat.
Proof.
  assert (Hmain : wire w `prefix_of` wire (perform_all net ops w)
    ∧ List.length (wire (perform_all net ops w))
      = (List.length (wire w) + List.length (List.filter sends_request ops))%nat).
  { induction ops as [|op ops (IHpre & IHlen)] using rev_ind.
    - cbn. split; [done|lia].
    - rewrite perform_all_snoc.
      destruct (perform_wire op (perform_all net ops w)) as (calls & -> & Hcalls).
      split; [by apply prefix_app_r|].
      rewrite List.filter_app, !length_app, IHlen. cbn [List.filter].
      destruct (sends_request op); cbn [List.length]; lia. }
  destruct Hmain as [Hpre Hlen]. split_and!; [done..|].
  rewrite Hlen. pose proof (List.filter_length_le sends_request ops). lia.
Qed.

(** X8.  What a public method settles with depends on the instance and on
    the server's answer to its one request, not on the calls made before:
    in two worlds with the same instance and the same answers the method
    settles alike. *)
Theorem outcome_ignores_history (op : operation) (w w' : World) :
  this w = this w' →
  (∀ call, net (wire w) call = net (wire w') call) →
  (perform net op w).1 = (perform net op w').1.
Proof.
  intros Hthis Hnet. rewrite !perform_run.
  destruct (prepare op) as [[[endpoint options] post]|e]; [|done].
  cbn zeta. by rewrite Hthis, Hnet.
Qed.

(** X13.  A response whose status is outside 200..299 makes every public
    method fail, the ones that ignore the body included; when the parsed
    body carries a non-empty string under [error], each method that makes
    its request fails with exactly that message. *)
Theorem http_failure_fails_every_method (op : operation) (w : World)
    (response : Response) :
  (∀ call, net (wire w) call = Return response) →
  ok response = false →
  is_Return (perform net op w).1 = false
  ∧ (∀ props c s,
       json response = Return (VObj props) →
       obj_lookup "error" props = Some (VStr (String c s)) →
       match fails_before_request op with
       | Some early => perform net op w = (Throw early, w)
       | None => ∃ call, perform net op w = (Throw (Error (String c s)), sent w call)
       end).
Proof.
  intros Hnet Hok. pose proof (perform_cases net op w) as Hcases.
  destruct (fails_before_request op) as [early|].
  - rewrite Hcases. by split.
  - destruct Hcases as (endpoint & options & post & _ & ->).
    rewrite Hnet. unfold settle. rewrite Hok. split.
    + pose proof (failure_outcome_throws response) as Hthrow.
      by destruct (failure_outcome response).
    + intros props c s Hjson Hfield. eexists.
      unfold failure_outcome. rewrite Hjson. cbn. by rewrite Hfield.
Qed.

(** X14.  A body that [JSON.stringify] cannot write ends the method before
    any request: [rollbackImplementation] with credentials that raise, and
    [implementLinks] with options of which a property raises, fail with
    that exception and leave the list of [fetch] calls as it was. *)
Theorem unwritable_body_makes_no_request (projectId : string) (w : World)
    (e : exn) :
  (∀ implementationId reason credentials,
     stringify_property credentials = Throw e →
     rollbackImplementation net projectId implementationId reason credentials w
     = (Throw e, w))
  ∧ (∀ suggestionIds options,
       stringify_object
         (obj_spread [("suggestionIds", Plain (VArr (VStr <$> suggestionIds)))]
                     options) = Throw e →
       implementLinks net projectId suggestionIds options w = (Throw e, w))
  ∧ (∀ suggestionIds name a,
       stringify_property a = Throw e →
       implementLinks net projectId suggestionIds [(name, a)] w = (Throw e, w)).
Proof.
  split_and!.
  - intros i r c Hc.
    pose proof (perform_cases net (RollbackImplementation projectId i r c) w)
      as Hcases.
    cbn [fails_before_request] in Hcases. by rewrite Hc in Hcases.
  - intros ids o Ho.
    pose proof (perform_cases net (ImplementLinks projectId ids o) w) as Hcases.
    cbn [fails_before_request] in Hcases. by rewrite Ho in Hcases.
  - intros ids name a Ha.
    pose proof (perform_cases net (ImplementLinks projectId ids [(name, a)]) w)
      as Hcases.
    cbn [fails_before_request] in Hcases.
    assert (Hthrow : stringify_object
                       (obj_spread
                          [("suggestionIds", Plain (VArr (VStr <$> ids)))]
                          [(name, a)]) = Throw e).
    { unfold obj_spread. cbn [foldl fst snd]. unfold obj_set.
      cbn [own_property].
      destruct (decide ("suggestionIds" = name)) as [<-|Hne].
      - cbn [obj_replace]. rewrite decide_True by done.
        unfold stringify_object. cbn [stringify_members]. by rewrite Ha.
      - destruct (array_index name) as [n|].
        + cbn [obj_insert_index].
          change (array_index "suggestionIds") with (@None N).
          unfold stringify_object. cbn [stringify_members]. by rewrite Ha.
        + unfold stringify_object.
          cbn [app stringify_members stringify_property outcome_bind].
          by rewrite Ha. }
    by rewrite Hthrow in Hcases.
Qed.

End Behaviour.

(** ** Further properties: queries, bodies and messages *)

Lemma form_decode_encode_byte (c : ascii) (t : string) :
  form_decode (form_encode_byte c +:+ t) = String c (form_decode t).
Proof. destruct c as [[] [] [] [] [] [] [] []]; reflexivity. Qed.

Lemma string_app_assoc (s t u : string) : (s +:+ t) +:+ u = s +:+ (t +:+ u).
Proof.
  induction s as [|c s IH]; [reflexivity|].
  change (String c ((s +:+ t) +:+ u) = String c (s +:+ (t +:+ u))). by f_equal.
Qed.

Lemma form_decode_encode (s : string) : form_decode (form_encode s) = s.
Proof.
  induction s as [|c s IH]; [reflexivity|].
  change (form_encode (String c s)) with (form_encode_byte c +:+ form_encode s).
  by rewrite form_decode_encode_byte, IH.
Qed.

Lemma form_encode_inj (s t : string) : form_encode s = form_encode t → s = t.
Proof.
  intros Heq. rewrite <- (form_decode_encode s), <- (form_decode_encode t).
  by rewrite Heq.
Qed.

Lemma string_app_inv_head (p a b : string) : p +:+ a = p +:+ b → a = b.
Proof.
  induction p as [|c p IH]; [done|].
  change (String c (p +:+ a) = String c (p +:+ b) → a = b).
  intros [= Heq]. by apply IH.
Qed.

(** Two texts cut at a separator that neither first part contains are cut
    at the same place. *)
Lemma app_separator_inj (sep : ascii) (s1 s2 r1 r2 : string) :
  contains_char sep s1 = false →
  contains_char sep s2 = false →
  s1 +:+ String sep r1 = s2 +:+ String sep r2 →
  s1 = s2 ∧ r1 = r2.
Proof.
  revert s2. induction s1 as [|c s1 IH]; intros [|d s2] H1 H2 Heq.
  - by injection Heq.
  - change (String sep r1 = String d (s2 +:+ String sep r2)) in Heq.
    injection Heq as -> _. cbn in H2. by rewrite Ascii.eqb_refl in H2.
  - change (String c (s1 +:+ String sep r1) = String sep r2) in Heq.
    injection Heq as -> _. cbn in H1. by rewrite Ascii.eqb_refl in H1.
  - change (String c (s1 +:+ String sep r1) = String d (s2 +:+ String sep r2))
      in Heq.
    injection Heq as -> Heq. cbn in H1, H2.
    apply orb_false_iff in H1 as [_ H1]. apply orb_false_iff in H2 as [_ H2].
    destruct (IH s2 H1 H2 Heq) as [-> ->]. done.
Qed.

Lemma form_pair_no_ampersand (p : string * string) :
  contains_char "&" (form_pair p) = false.
Proof.
  unfold form_pair. rewrite !contains_char_app.
  destruct (form_encode_no_delimiter p.1) as (_ & -> & _).
  destruct (form_encode_no_delimiter p.2) as (_ & -> & _). reflexivity.
Qed.

Lemma form_pair_inj (p q : string * string) : form_pair p = form_pair q → p = q.
Proof.
  destruct p as [k v], q as [k' v']. unfold form_pair. cbn [fst snd].
  change ("=" +:+ form_encode v) with (String "=" (form_encode v)).
  change ("=" +:+ form_encode v') with (String "=" (form_encode v')).
  intros Heq. apply app_separator_inj in Heq as [Hk Hv].
  - by rewrite (form_encode_inj _ _ Hk), (form_encode_inj _ _ Hv).
  - by destruct (form_encode_no_delimiter k) as (_ & _ & ->).
  - by destruct (form_encode_no_delimiter k') as (_ & _ & ->).
Qed.

Lemma concat_ampersand_cons (x : string) (xs : list string) :
  String.concat "&" (x :: xs)
  = match xs with [] => x | _ :: _ => x +:+ String "&" (String.concat "&" xs) end.
Proof. by destruct xs. Qed.

Lemma params_toString_inj (p q : URLSearchParams) :
  params_toString p = params_toString q → p = q.
Proof.
  revert q. induction p as [|x p IH]; intros [|y q] Heq.
  - done.
  - exfalso. pose proof (params_toString_truthy (y :: q)) as Hy.
    by rewrite <- Heq in Hy.
  - exfalso. pose proof (params_toString_truthy (x :: p)) as Hx.
    by rewrite Heq in Hx.
  - unfold params_toString in Heq. cbn [fmap list_fmap] in Heq.
    fold (form_pair <$> p) in Heq. fold (form_pair <$> q) in Heq.
    rewrite !concat_ampersand_cons in Heq.
    destruct p as [|x' p], q as [|y' q].
    + cbn in Heq. by rewrite (form_pair_inj _ _ Heq).
    + exfalso. pose proof (form_pair_no_ampersand x) as Hx.
      cbn [fmap list_fmap] in Heq.
      rewrite Heq, contains_char_app in Hx. cbn in Hx.
      by rewrite orb_true_r in Hx.
    + exfalso. pose proof (form_pair_no_ampersand y) as Hy.
      cbn [fmap list_fmap] in Heq.
      rewrite <- Heq, contains_char_app in Hy. cbn in Hy.
      by rewrite orb_true_r in Hy.
    + set (ps := form_pair <$> x' :: p) in Heq.
      set (qs := form_pair <$> y' :: q) in Heq.
      assert (Hps : ps = form_pair x' :: (form_pair <$> p)) by reflexivity.
      assert (Hqs : qs = form_pair y' :: (form_pair <$> q)) by reflexivity.
      rewrite Hps, Hqs in Heq.
      apply app_separator_inj in Heq as [Hhead Htail];
        [|apply form_pair_no_ampersand..].
      rewrite (form_pair_inj _ _ Hhead). f_equal. by apply IH.
Qed.

Lemma with_query_inj (path : string) (p q : URLSearchParams) :
  with_query path p = with_query path q → p = q.
Proof.
  rewrite !with_query_cases.
  assert (Hnil : path = path +:+ "") by (symmetry; apply (with_query_cases path [])).
  repeat case_bool_decide; subst; try done.
  - intros Heq. rewrite Hnil in Heq at 1.
    by apply string_app_inv_head in Heq.
  - intros Heq. rewrite Hnil in Heq at 2.
    by apply string_app_inv_head in Heq.
  - intros Heq. apply string_app_inv_head in Heq.
    injection Heq as Heq. by apply params_toString_inj.
Qed.

(** *** Objects as ordered lists of properties *)

Section Objects.
Context {A : Type}.
Implicit Types (props : list (string * A)) (name : string) (v : A).
















End Objects.

Section Rendering.
Context `{!Host}.
Variable net : list FetchCall → FetchCall → outcome Response.

Lemma listing_wire (endpoint field : string) (w : World) :
  wire (bind (request net endpoint no_options)
             (λ response, lift (get_prop response field)) w).2
  = wire w ++ [request_call (this w) endpoint no_options].
Proof.
  rewrite bind_pure_world by (intros; apply lift_world).
  by rewrite request_world.
Qed.

Lemma request_call_inj (self : RankVectorsSDK) (e1 e2 : string) (w : World) :
  wire w ++ [request_call self e1 no_options]
  = wire w ++ [request_call self e2 no_options] → e1 = e2.
Proof.
  intros Heq. apply app_inv_head in Heq. injection Heq as Heq.
  by apply string_app_inv_head in Heq.
Qed.

(** X9.  The query string is unambiguous, for names and values that are
    Unicode text (a string here is the bytes of its UTF-8 text).  Two filter
    sets make [getSuggestions], or [getImplementations], send the same
    request for a project exactly when they render the same list of
    parameters: the serializer escapes [&], [=] and [?] in names and
    values, and what it writes reads back to the text it was given. *)
Theorem endpoint_determines_parameters (projectId : string) (w : World) :
  (∀ f g : option SuggestionFilters,
     wire (getSuggestions net projectId f w).2
     = wire (getSuggestions net projectId g w).2
     ↔ suggestions_params f = suggestions_params g)
  ∧ (∀ f g : option ImplementationFilters,
       wire (getImplementations net projectId f w).2
       = wire (getImplementations net projectId g w).2
       ↔ implementations_params f = implementations_params g)
  ∧ (∀ f g : option SuggestionFilters,
       suggestions_endpoint projectId f = suggestions_endpoint projectId g
       ↔ suggestions_params f = suggestions_params g)
  ∧ (∀ f g : option ImplementationFilters,
       implementations_endpoint projectId f = implementations_endpoint projectId g
       ↔ implementations_params f = implementations_params g)
  ∧ (∀ p q : URLSearchParams, params_toString p = params_toString q ↔ p = q)
  ∧ (∀ s, form_decode (form_encode s) = s).
Proof.
  split_and!.
  - intros f g. unfold getSuggestions. rewrite !listing_wire. split.
    + intros Heq%request_call_inj. by apply with_query_inj in Heq.
    + unfold suggestions_endpoint. by intros ->.
  - intros f g. unfold getImplementations. rewrite !listing_wire. split.
    + intros Heq%request_call_inj. by apply with_query_inj in Heq.
    + unfold implementations_endpoint. by intros ->.
  - intros f g. split; [apply with_query_inj|].
    unfold suggestions_endpoint. by intros ->.
  - intros f g. split; [apply with_query_inj|].
    unfold implementations_endpoint. by intros ->.
  - intros p q. split; [apply params_toString_inj|by intros ->].
  - apply form_decode_encode.
Qed.


Lemma ToString_array (elements : list value) (texts : list string) :
  Forall2 (λ e t, element_text e = Return t) elements texts →
  ToString (VArr elements) = Return (String.concat "," texts).
Proof.
  induction 1 as [|e t elements texts He Hrest IH]; [reflexivity|].
  change (ToString (VArr (e :: elements)))
    with (outcome_bind (element_text e) (λ s,
            match elements with
            | [] => Return s
            | _ :: _ => outcome_bind (ToString (VArr elements))
                          (λ r, Return (s +:+ "," +:+ r))
            end)).
  rewrite He. cbn [outcome_bind].
  destruct Hrest as [|e' t' elements texts He' Hrest']; [reflexivity|].
  by rewrite IH.
Qed.

Lemma ToString_strings (strings : list string) :
  ToString (VArr (VStr <$> strings)) = Return (String.concat "," strings).
Proof.
  apply ToString_array. induction strings as [|s strings IH]; by constructor.
Qed.

(** X11.  On a failed response the [error] property is made a message by
    string conversion, whatever it is: an error object gives the message
    [[object Object]], a number its digits, [true] the word [true], and an
    array the texts of its elements joined by commas, [null] elements
    counting as empty, so that the empty array, which is truthy, gives the
    empty message; an error object with a property named [toString] makes
    the call fail with a [TypeError]. *)
Theorem structured_error_message (endpoint : string) (options : RequestInit)
    (w : World) (response : Response) (data error : value) :
  net (wire w) (request_call (this w) endpoint options) = Return response →
  ok response = false →
  json response = Return data →
  get_prop data "error" = Return error →
  (∀ props, error = VObj props → obj_lookup "toString" props = None →
     (request net endpoint options w).1 = Throw (Error "[object Object]"))
  ∧ (∀ props, error = VObj props → is_Some (obj_lookup "toString" props) →
       (request net endpoint options w).1 = Throw TypeError)
  ∧ (∀ n, error = VNum n → number_truthy n = true →
       (request net endpoint options w).1 = Throw (Error (number_toString n)))
  ∧ (error = VBool true →
       (request net endpoint options w).1 = Throw (Error "true"))
  ∧ (error = VArr [] → (request net endpoint options w).1 = Throw (Error ""))
  ∧ (∀ elements texts,
       error = VArr elements →
       Forall2 (λ e t, element_text e = Return t) elements texts →
       (request net endpoint options w).1
       = Throw (Error (String.concat "," texts)))
  ∧ (∀ strings,
       error = VArr (VStr <$> strings) →
       (request net endpoint options w).1
       = Throw (Error (String.concat "," strings))).
Proof.
  intros Hnet Hok Hjson Hget.
  rewrite request_outcome, Hnet, Hok. unfold failure_outcome.
  rewrite Hjson, Hget. cbn [outcome_bind].
  split_and!.
  - intros props -> Hnone. cbn. by rewrite Hnone.
  - intros props -> [v Hsome]. cbn. by rewrite Hsome.
  - intros n -> Htrue. cbn. by rewrite Htrue.
  - by intros ->.
  - by intros ->.
  - intros elements texts -> Htexts. cbn [truthy].
    by rewrite (ToString_array elements texts Htexts).
  - intros strings ->. cbn [truthy]. by rewrite ToString_strings.
Qed.

(** X12.  An optional argument that is left out is absent from the JSON
    body, not sent as [null]: [addCredits] without a source sends the
    amount alone, [verifyContent] without a suggestion id the page URL
    alone, and [rollbackImplementation] without reason and credentials the
    empty object.  An amount that is not finite is sent as [null]. *)
Theorem optional_arguments_left_out (projectId : string) (w : World) :
  let call path text :=
    {| url := baseUrl (this w) +:+ "/api/projects/" +:+ projectId +:+ path;
       init := {| method := Some "POST"; body := Some text;
                  headers := Some (default_headers (apiKey (this w))) |} |} in
  let number_text n := if number_isFinite n then number_toString n else "null" in
  (∀ amount,
     wire (addCredits net projectId amount None w).2
     = wire w ++ [call "/credits"
                    (json_object [json_member "amount" (number_text amount)])])
  ∧ (∀ amount source,
       wire (addCredits net projectId amount (Some source) w).2
       = wire w ++ [call "/credits"
                      (json_object [json_member "amount" (number_text amount);
                                    json_member "source" (json_quote source)])])
  ∧ (∀ pageUrl,
       wire (verifyContent net projectId pageUrl None w).2
       = wire w ++ [call "/verify-content"
                      (json_object [json_member "pageUrl" (json_quote pageUrl)])])
  ∧ (∀ pageUrl suggestionId,
       wire (verifyContent net projectId pageUrl (Some suggestionId) w).2
       = wire w ++ [call "/verify-content"
                      (json_object
                         [json_member "pageUrl" (json_quote pageUrl);
                          json_member "suggestionId" (json_quote suggestionId)])])
  ∧ (∀ implementationId,
       wire (rollbackImplementation net projectId implementationId None
               VUndefined w).2
       = wire w ++
         [call ("/implementations/" +:+ implementationId +:+ "/rollback")
               (json_object [])]).
Proof.
  cbn zeta. split_and!; intros.
  - unfold addCredits. rewrite bind_pure_world by (intros; apply lift_world).
    rewrite request_world. unfold sent, request_call.
    cbn [wire this method body headers]. by rewrite merged_headers_none.
  - unfold addCredits. rewrite bind_pure_world by (intros; apply lift_world).
    rewrite request_world. unfold sent, request_call.
    cbn [wire this method body headers]. by rewrite merged_headers_none.
  - unfold verifyContent. rewrite bind_pure_world by (intros; apply lift_world).
    rewrite request_world. unfold sent, request_call.
    cbn [wire this method body headers]. by rewrite merged_headers_none.
  - unfold verifyContent. rewrite bind_pure_world by (intros; apply lift_world).
    rewrite request_world. unfold sent, request_call.
    cbn [wire this method body headers]. by rewrite merged_headers_none.
  - unfold rollbackImplementation, bind, lift.
    change (stringify_object
              [("reason", Plain (optional_string None));
               ("credentials", Plain VUndefined)])
      with (@Return string (json_object [])).
    cbv beta iota. rewrite request_world. unfold sent, request_call.
    cbn [wire this method body headers]. by rewrite merged_headers_none.
Qed.

End Rendering.
(** ** The further properties on concrete requests *)

Section MoreConcrete.
#[local] Existing Instance integer_host.

(** An invalid start date stops [getCredits] before the request. *)
Lemma invalid_date_sample :
  dates_valid (Some invalid_start) = false
  ∧ getCredits (always response_usage) "p1" None (Some invalid_start) sample_world
    = (Throw RangeError, sample_world).
Proof.
  split; [reflexivity|].
  exact (proj1 (invalid_date_makes_no_request (always response_usage) "p1" None
                  (Some invalid_start) sample_world eq_refl)).
Defined.

(** Two valid dates are rendered after [includeHistory]. *)
Lemma credits_query_sample :
  dates_valid (Some valid_range) = true
  ∧ credits_params (Some true) (Some valid_range)
    = Return [("includeHistory", "true");
              ("startDate", "2024-01-01T00:00:00.000Z");
              ("endDate", "2024-02-01T00:00:00.000Z")].
Proof.
  split; [reflexivity|].
  exact (proj1 (credits_query_rendering (always response_usage) "p1" (Some true)
                  (Some valid_range) sample_world eq_refl)).
Defined.

(** An unreachable server makes [getSuggestions] reject with the reason of
    [fetch]. *)
Lemma transport_failure_sample :
  (∀ call, unreachable TypeError (wire sample_world) call = Throw TypeError)
  ∧ fails_before_request (GetSuggestions "p1" None) = None
  ∧ (getSuggestions (unreachable TypeError) "p1" None sample_world).1
    = Throw TypeError.
Proof.
  split; [reflexivity|]. split; [reflexivity|].
  pose proof (transport_failure_propagates (unreachable TypeError)
                (GetSuggestions "p1" None) sample_world TypeError
                (λ _, eq_refl)) as Hrun.
  cbn [fails_before_request] in Hrun. destruct Hrun as [call Hrun].
  exact (f_equal fst Hrun).
Defined.

(** A 204 response without a body makes [approveSuggestion] fail. *)
Lemma success_without_json_sample :
  ok response_no_content = true
  ∧ json response_no_content = Throw SyntaxError
  ∧ (approveSuggestion (always response_no_content) "s1" sample_world).1
    = Throw SyntaxError.
Proof.
  split; [reflexivity|]. split; [reflexivity|].
  exact (proj1 (proj2 (success_without_json_fails (always response_no_content)
                         (ApproveSuggestion "s1") sample_world response_no_content
                         SyntaxError (λ _, eq_refl) eq_refl eq_refl)) "s1").
Defined.

(** An empty envelope makes [getSuggestions] return [undefined]. *)
Lemma envelope_field_sample :
  ok response_empty_object = true
  ∧ json response_empty_object = Return (VObj [])
  ∧ (getSuggestions (always response_empty_object) "p1" None sample_world).1
    = Return VUndefined.
Proof.
  split; [reflexivity|]. split; [reflexivity|].
  exact (proj1 (envelope_field_or_undefined (always response_empty_object)
                  sample_world response_empty_object [] (λ _, eq_refl)
                  eq_refl eq_refl) "p1" None).
Defined.

(** A [null] envelope makes [getSuggestions] fail with a [TypeError]. *)
Lemma null_envelope_sample :
  ok response_success_null = true
  ∧ json response_success_null = Return VNull
  ∧ (getSuggestions (always response_success_null) "p1" None sample_world).1
    = Throw TypeError.
Proof.
  split; [reflexivity|]. split; [reflexivity|].
  exact (proj1 (null_envelope (always response_success_null) sample_world
                  response_success_null (λ _, eq_refl) eq_refl eq_refl)
           "p1" None).
Defined.

(** A request made before does not change what [getSuggestions] returns. *)
Lemma outcome_ignores_history_sample :
  this sample_world = this busy_world
  ∧ wire sample_world ≠ wire busy_world
  ∧ (perform (always response_suggestions) (GetSuggestions "p1" None)
       sample_world).1
    = (perform (always response_suggestions) (GetSuggestions "p1" None)
         busy_world).1.
Proof.
  split; [reflexivity|]. split; [discriminate|].
  exact (outcome_ignores_history (always response_suggestions)
           (GetSuggestions "p1" None) sample_world busy_world eq_refl
           (λ _, eq_refl)).
Defined.


(** A 422 response with an error object fails with [[object Object]]. *)
Lemma structured_error_sample :
  ok response_error_object = false
  ∧ (request (always response_error_object) "/x" no_options sample_world).1
    = Throw (Error "[object Object]").
Proof.
  split; [reflexivity|].
  exact (proj1 (structured_error_message (always response_error_object) "/x"
                  no_options sample_world response_error_object _ _
                  eq_refl eq_refl eq_refl eq_refl) _ eq_refl eq_refl).
Defined.

(** A 404 response with an error message makes [verifyContent] fail with
    that message. *)
Lemma http_failure_sample :
  ok response_not_found = false
  ∧ (verifyContent (always response_not_found) "p1" "https://example.com/page"
       None sample_world).1
    = Throw (Error "not found").
Proof.
  split; [reflexivity|].
  pose proof (proj2 (http_failure_fails_every_method (always response_not_found)
                       (VerifyContent "p1" "https://example.com/page" None)
                       sample_world response_not_found (λ _, eq_refl) eq_refl)
                _ "n"%char "ot found" eq_refl eq_refl) as Hrun.
  cbn [fails_before_request] in Hrun. destruct Hrun as [call Hrun].
  exact (f_equal fst Hrun).
Defined.

(** Credentials that hold themselves make [rollbackImplementation] fail
    before any request. *)
Lemma unwritable_body_sample :
  stringify_property cyclic_credentials = Throw TypeError
  ∧ rollbackImplementation (always response_suggestions) "p1" "i1" None
      cyclic_credentials sample_world
    = (Throw TypeError, sample_world).
Proof.
  split; [reflexivity|].
  exact (proj1 (unwritable_body_makes_no_request (always response_suggestions)
                  "p1" sample_world TypeError)
           "i1" None cyclic_credentials eq_refl).
Defined.

End MoreConcrete.
